(** * BattleChess9000 multiplayer service: a shallow embedding of the
    WebSocket servers and the properties of their handlers.

    The repository holds three successive iterations of one server:
    - the room relay (first program of [src/server.js]): [Module Relay];
    - the lobby server ([src/unnamed/part_000]): [Module Lobby];
    - the lobby server with private links (second program of
      [src/server.js]): [Module Server].

    Handlers are synchronous, so each one is a function from the state
    before to an [outcome]: the state after and the messages sent, or an
    exception nobody catches.  What a handler cannot decide is an
    argument: [isOpen] tells which sockets have [readyState === OPEN],
    [uuid] is the string [uuidv4()] returns and [coin] is
    [Math.random() < 0.5].

    Two features of JavaScript are kept because the handlers depend on
    them: message fields are untyped ([jsval]), and the tables [rooms]
    and [globalStats] are plain objects, whose lookups also find what
    [Object.prototype] provides ([property]). *)

From Stdlib Require Import NArith Ascii String.
From stdpp Require Import gmap strings list fin_maps.

(** ** JavaScript values and objects *)

Module Js.

(** A field of a parsed message.  [JUndefined] is a field the object does
    not have.  A number carries whether it is zero (the only falsy numbers
    [JSON.parse] yields) and its [ToString]; an array or object carries
    its [ToString], [None] when the conversion to a primitive throws (an
    object with a [toString] member that is not callable). *)
Inductive jsval :=
  | JUndefined
  | JNull
  | JBool (b : bool)
  | JNum (zero : bool) (repr : string)
  | JStr (s : string)
  | JObj (repr : option string).

#[global] Instance jsval_eq_dec : EqDecision jsval.
Proof. solve_decision. Defined.

(** [ToBoolean]. *)
Definition truthy (v : jsval) : bool :=
  match v with
  | JUndefined | JNull => false
  | JBool b => b
  | JNum zero _ => negb zero
  | JStr s => negb (String.eqb s "")
  | JObj _ => true
  end.

(** [a || b]. *)
Definition or_else (a b : jsval) : jsval := if truthy a then a else b.

(** [v === s] for a string [s]. *)
Definition strict_eq_str (v : jsval) (s : string) : bool :=
  match v with
  | JStr t => String.eqb t s
  | _ => false
  end.

(** [ToPropertyKey], the conversion behind [obj[v]]; [None] when it
    throws. *)
Definition to_key (v : jsval) : option string :=
  match v with
  | JUndefined => Some "undefined"
  | JNull => Some "null"
  | JBool true => Some "true"
  | JBool false => Some "false"
  | JNum _ repr => Some repr
  | JStr s => Some s
  | JObj repr => repr
  end.

(** The properties every plain object inherits from [Object.prototype]. *)
Definition object_prototype_keys : list string :=
  [ "constructor"; "__defineGetter__"; "__defineSetter__"; "hasOwnProperty";
    "__lookupGetter__"; "__lookupSetter__"; "isPrototypeOf";
    "propertyIsEnumerable"; "toString"; "valueOf"; "__proto__";
    "toLocaleString" ].

(** The result of [obj[k]] on a plain object used as a map: an own
    property, a builtin found on the prototype (truthy, and without any
    of the fields the servers read), or [undefined]. *)
Inductive property (A : Type) :=
  | Own (a : A)
  | Inherited
  | Absent.
Arguments Own {A} a.
Arguments Inherited {A}.
Arguments Absent {A}.

Definition inherits (k : string) : bool :=
  bool_decide (k ∈ object_prototype_keys).

Definition get_property {A} (own : option A) (k : string) : property A :=
  match own with
  | Some a => Own a
  | None => if inherits k then Inherited else Absent
  end.

(** [x++] on a counter: numbers are doubles, and [2^53 + 1] rounds back
    to [2^53]. *)
Definition max_safe : N := 2 ^ 53.

Definition incr (n : N) : N := if (n <? max_safe)%N then (n + 1)%N else n.

Definition is_hex (c : ascii) : bool :=
  let n := nat_of_ascii c in
  ((48 <=? n) && (n <=? 57) || (97 <=? n) && (n <=? 102))%nat.

(** The shape of the strings [uuidv4()] returns:
    [xxxxxxxx-xxxx-4xxx-yxxx-xxxxxxxxxxxx]. *)
Fixpoint uuid_shape (i : nat) (s : string) : bool :=
  match s with
  | EmptyString => (i =? 36)%nat
  | String c s' =>
      (if ((i =? 8) || (i =? 13) || (i =? 18) || (i =? 23))%nat
       then Ascii.eqb c "-"%char
       else if (i =? 14)%nat then Ascii.eqb c "4"%char
       else is_hex c)
      && uuid_shape (S i) s'
  end.

Definition is_uuid (s : string) : bool := uuid_shape 0 s.

End Js.
Export Js.

(** ** Insertion-ordered maps

    A JS [Map], and a plain object whose keys are not array indices, are
    both visited in insertion order; writing to a key that is present
    keeps its place. *)

Section Assoc.
Context {K A : Type} `{EqDecision K}.

Fixpoint assoc_get (k : K) (l : list (K * A)) : option A :=
  match l with
  | [] => None
  | (k', a) :: l' => if decide (k = k') then Some a else assoc_get k l'
  end.

Fixpoint assoc_set (k : K) (a : A) (l : list (K * A)) : list (K * A) :=
  match l with
  | [] => [(k, a)]
  | (k', a') :: l' =>
      if decide (k = k') then (k, a) :: l' else (k', a') :: assoc_set k a l'
  end.

Fixpoint assoc_delete (k : K) (l : list (K * A)) : list (K * A) :=
  match l with
  | [] => []
  | (k', a) :: l' =>
      if decide (k = k') then assoc_delete k l'
      else (k', a) :: assoc_delete k l'
  end.
End Assoc.

(** ** What the servers share *)

Module Registry.

(** A connection: the identity of a [ws] object. *)
Abbreviation ws := nat (only parsing).

(** ['connecting'], ['lobby'], ['waiting_private'], ['playing']. *)
Inductive status := Connecting | Lobby | WaitingPrivate | Playing.

#[global] Instance status_eq_dec : EqDecision status.
Proof. solve_decision. Defined.

(** The value of a [clients] entry.  [create_private] and [join_private]
    store [msg.name] and [msg.avatar] whatever their type, hence
    [jsval]. *)
Record client := Client {
  id : string;
  name : jsval;
  avatar : jsval;
  state : status
}.

Record stats_record := Stats { wins : N; losses : N }.

(** ['w'] and ['b']. *)
Inductive color := White | Black.

(** One element of [lobbyList].  [entry_stats] is [None] when
    [globalStats[data.name]] is a builtin inherited from the prototype,
    which [JSON.stringify] does not print as a record. *)
Record lobby_entry := LobbyEntry {
  entry_id : string;
  entry_name : jsval;
  entry_avatar : jsval;
  entry_stats : option stats_record
}.

(** Server to client messages; [Start] is the relay's. *)
Inductive payload :=
  | Start (c : color)
  | LoginSuccess (myId : string)
  | LobbyUpdate (players : list lobby_entry)
  | PrivateCreated (roomId : string)
  | ChallengeReceived (fromId : string) (fromName : jsval)
  | GameStart (roomId : jsval) (c : color) (opponent : jsval)
  | Move (move : jsval)
  | OpponentDisconnected
  | Error (message : string).

(** The fields the handlers read from a parsed message. *)
Record message := Msg {
  type : jsval;
  msg_name : jsval;
  msg_avatar : jsval;
  targetId : jsval;
  roomId : jsval;
  move : jsval;
  winnerName : jsval;
  loserName : jsval
}.

(** What [JSON.parse] makes of a frame: it throws, or yields [null], or
    yields a value whose properties can be read (for a number, a string
    or an array all eight fields are [JUndefined]). *)
Inductive frame :=
  | BadJson
  | JsonNull
  | Json (msg : message).

Abbreviation sent := (list (nat * payload)) (only parsing).

(** [send(ws, data)]: [readyState] is fixed while a handler runs. *)
Definition send (isOpen : ws → bool) (w : ws) (p : payload) : sent :=
  if isOpen w then [(w, p)] else [].

Definition stats_get (g : gmap string stats_record) (k : string)
  : property stats_record :=
  get_property (g !! k) k.

Definition is_lobby (c : client) : bool := bool_decide (state c = Lobby).

(** [globalStats[data.name] || { wins: 0, losses: 0 }] *)
Definition lobby_entry_of (g : gmap string stats_record) (c : client)
  : option lobby_entry :=
  k ← to_key (name c);
  Some (LobbyEntry (id c) (name c) (avatar c)
          (match stats_get g k with
           | Own r => Some r
           | Inherited => None
           | Absent => Some (Stats 0 0)
           end)).

(** The first loop of [broadcastLobby]; [None] when a key conversion
    throws. *)
Fixpoint lobbyList (g : gmap string stats_record) (cs : list (ws * client))
  : option (list lobby_entry) :=
  match cs with
  | [] => Some []
  | (_, c) :: cs' =>
      if is_lobby c
      then e ← lobby_entry_of g c; (e ::.) <$> lobbyList g cs'
      else lobbyList g cs'
  end.

(** The second loop of [broadcastLobby]. *)
Fixpoint push_lobby (isOpen : ws → bool) (p : payload)
    (cs : list (ws * client)) : sent :=
  match cs with
  | [] => []
  | (w, c) :: cs' =>
      (if is_lobby c && isOpen w then [(w, p)] else [])
        ++ push_lobby isOpen p cs'
  end.

Definition broadcastLobby (isOpen : ws → bool)
    (cs : list (ws * client)) (g : gmap string stats_record) : option sent :=
  l ← lobbyList g cs; Some (push_lobby isOpen (LobbyUpdate l) cs).

(** The result of running a handler.  [Uncaught] is an exception that
    leaves the handler: no listener for it is installed, so the process
    ends, and what the handler had sent before throwing is not kept. *)
Inductive outcome (S : Type) :=
  | Done (s : S) (out : sent)
  | Uncaught.
Arguments Done {S} s out.
Arguments Uncaught {S}.

(** [for (let [w, data] of clients) if (data.id === v ...)]: the first
    entry in insertion order that passes. *)
Definition find_client (v : jsval) (also : client → bool)
    (cs : list (ws * client)) : option (ws * client) :=
  List.find (λ e, strict_eq_str v (id e.2) && also e.2) cs.

(** [if (globalStats[k]) globalStats[k].wins++]; on a builtin the
    increment lands on the builtin, not in the table. *)
Definition bump (f : stats_record → stats_record) (k : string)
    (g : gmap string stats_record) : gmap string stats_record :=
  match stats_get g k with
  | Own r => <[k := f r]> g
  | Inherited | Absent => g
  end.

Definition win (r : stats_record) : stats_record :=
  Stats (incr (wins r)) (losses r).

Definition lose (r : stats_record) : stats_record :=
  Stats (wins r) (incr (losses r)).

(** [room.players.forEach(p => { if (p !== ws) send(p, data) })] *)
Definition send_others (isOpen : ws → bool) (w : ws) (p : payload)
    (members : list ws) : sent :=
  flat_map (λ m, if decide (m = w) then [] else send isOpen m p) members.

(** [substring(0, 15) || "Player"] *)
Definition safe_login_name (n : string) : string :=
  let t := String.substring 0 15 n in
  if String.eqb t "" then "Player" else t.

(** A [rooms] entry.  The lobby server writes [{ players }] only, so
    there [isPrivate] is [None]. *)
Record room := Room { players : list ws; isPrivate : option bool }.

(** The three tables: [clients] (a [Map] keyed by connection), [rooms]
    and [globalStats] (plain objects).  [polluted] records that
    [Object.prototype] has been given an enumerable property, which
    [game_over] does when a name is ["__proto__"]:
    [globalStats["__proto__"]] is [Object.prototype] itself. *)
Record State := Build {
  clients : list (ws * client);
  rooms : list (string * room);
  globalStats : gmap string stats_record;
  polluted : bool
}.

Definition initial : State := Build [] [] ∅ false.

Definition rooms_get (s : State) (k : string) : property room :=
  get_property (assoc_get k (rooms s)) k.

(** The rooms that list a connection, and their ids. *)
Definition memberships (w : ws) (rs : list (string * room))
  : list (string * room) :=
  List.filter (λ e, bool_decide (w ∈ players e.2)) rs.

Definition sessions_of (w : ws) (s : State) : list string :=
  (memberships w (rooms s)).*1.

Definition status_of (w : ws) (s : State) : option status :=
  state <$> assoc_get w (clients s).

(** [wss.on("connection", ...)]: [clientId] is the string [uuidv4()]
    returned. *)
Definition on_connection (w : ws) (clientId : string) (s : State) : State :=
  Build (assoc_set w (Client clientId (JStr "Guest") (JStr "w_p") Connecting)
           (clients s))
        (rooms s) (globalStats s) (polluted s).

Definition is_type (m : message) (t : string) : bool :=
  strict_eq_str (type m) t.

(** The branches below are the same text in both lobby servers. *)

(** [if (msg.type === "login")].  [msg.name.substring] throws unless
    [msg.name] is a string.  [clientId] is the [id] the connection handler
    stored, which no handler reassigns. *)
Definition login (isOpen : ws → bool) (w : ws) (m : message) (s : State)
  : outcome State :=
  match msg_name m with
  | JStr n =>
      let safeName := safe_login_name n in
      let g := match stats_get (globalStats s) safeName with
               | Absent => <[safeName := Stats 0 0]> (globalStats s)
               | Own _ | Inherited => globalStats s
               end in
      match assoc_get w (clients s) with
      | None => Uncaught
      | Some c =>
          let cs := assoc_set w
                      (Client (id c) (JStr safeName)
                         (or_else (msg_avatar m) (JStr "w_k")) Lobby)
                      (clients s) in
          match broadcastLobby isOpen cs g with
          | Some out =>
              Done (Build cs (rooms s) g (polluted s))
                   (send isOpen w (LoginSuccess (id c)) ++ out)
          | None => Uncaught
          end
      end
  | _ => Uncaught
  end.

(** [if (msg.type === "challenge_request")] *)
Definition challenge_request (isOpen : ws → bool) (w : ws) (m : message)
    (s : State) : outcome State :=
  match find_client (targetId m) is_lobby (clients s) with
  | Some (targetWs, _) =>
      match assoc_get w (clients s) with
      | None => Uncaught
      | Some c =>
          Done s (send isOpen targetWs (ChallengeReceived (id c) (name c)))
      end
  | None => Done s []
  end.

(** [if (msg.type === "move")]: on a builtin, [.players] is [undefined]
    and [.forEach] throws. *)
Definition relay_move (isOpen : ws → bool) (w : ws) (m : message) (s : State)
  : outcome State :=
  match to_key (roomId m) with
  | None => Uncaught
  | Some k =>
      match rooms_get s k with
      | Own r => Done s (send_others isOpen w (Move (move m)) (players r))
      | Inherited => Uncaught
      | Absent => Done s []
      end
  end.

(** Whether [globalStats[k].wins++] writes to [Object.prototype]. *)
Definition pollutes (g : gmap string stats_record) (k : string) : bool :=
  match stats_get g k with
  | Inherited => String.eqb k "__proto__"
  | Own _ | Absent => false
  end.

(** [if (msg.type === "game_over")] *)
Definition game_over (m : message) (s : State) : outcome State :=
  match to_key (winnerName m), to_key (loserName m) with
  | Some kw, Some kl =>
      let g := bump win kw (globalStats s) in
      Done (Build (clients s) (rooms s) (bump lose kl g)
              (polluted s || pollutes (globalStats s) kw || pollutes g kl))
           []
  | _, _ => Uncaught
  end.

End Registry.
Export Registry.

(** ** The room relay (first program of [src/server.js]) *)

Module Relay.

(** An element of [room.players]; [color] is [null] until the game
    starts. *)
Record player := Player {
  player_ws : ws;
  player_name : jsval;
  player_color : option color
}.

(** [rooms] maps a room id to its [players]; [clientRoom] is the [Map]
    from a connection to the [roomId] it joined with, stored as
    received. *)
Record State := Build {
  rooms : list (string * list player);
  clientRoom : list (ws * jsval)
}.

Definition rooms_get (s : State) (k : string) : property (list player) :=
  get_property (assoc_get k (rooms s)) k.

(** [broadcastToRoom(roomId, payload, exceptWs)]; [None] when reading
    [players] off a builtin throws. *)
Definition broadcastToRoom (isOpen : ws → bool) (s : State) (roomId : jsval)
    (p : payload) (exceptWs : option ws) : option sent :=
  k ← to_key roomId;
  match rooms_get s k with
  | Own ps =>
      Some (flat_map
              (λ q, if bool_decide (Some (player_ws q) ≠ exceptWs)
                       && isOpen (player_ws q)
                    then [(player_ws q, p)] else [])
              ps)
  | Inherited => None
  | Absent => Some []
  end.

Definition set_color (c : color) (q : player) : player :=
  Player (player_ws q) (player_name q) (Some c).

(** [if (msg.type === "join")] *)
Definition join (isOpen : ws → bool) (coin : bool) (w : ws) (m : message)
    (s : State) : outcome State :=
  let name := or_else (msg_name m) (JStr "Player") in
  if negb (truthy (roomId m))
  then Done s (send isOpen w (Error "No roomId provided"))
  else
    match to_key (roomId m) with
    | None => Uncaught
    | Some k =>
        match rooms_get s k with
        | Inherited => Uncaught
        | found =>
            let ps := match found with Own ps => ps | _ => [] end in
            if (2 <=? length ps)%nat
            then Done s (send isOpen w (Error "Room full"))
            else
              let joined := ps ++ [Player w name None] in
              let cr := assoc_set w (roomId m) (clientRoom s) in
              match joined with
              | [q0; q1] =>
                  let c0 := if coin then White else Black in
                  let c1 := if coin then Black else White in
                  Done (Build
                          (assoc_set k [set_color c0 q0; set_color c1 q1]
                             (rooms s))
                          cr)
                       (send isOpen (player_ws q0) (Start c0)
                        ++ send isOpen (player_ws q1) (Start c1))
              | _ => Done (Build (assoc_set k joined (rooms s)) cr) []
              end
        end
    end.

(** [if (msg.type === "move")] *)
Definition relay_move (isOpen : ws → bool) (w : ws) (m : message) (s : State)
  : outcome State :=
  if negb (truthy (roomId m)) then Done s []
  else
    match to_key (roomId m) with
    | None => Uncaught
    | Some k =>
        match rooms_get s k with
        | Absent => Done s []
        | Own _ | Inherited =>
            match broadcastToRoom isOpen s (roomId m) (Move (move m)) (Some w)
            with
            | Some out => Done s out
            | None => Uncaught
            end
        end
    end.

(** [ws.on("message", ...)] *)
Definition on_message (isOpen : ws → bool) (coin : bool) (w : ws) (f : frame)
    (s : State) : outcome State :=
  match f with
  | BadJson => Done s []
  | JsonNull => Uncaught
  | Json m =>
      if is_type m "join" then join isOpen coin w m s
      else if is_type m "move" then relay_move isOpen w m s
      else Done s []
  end.

(** [ws.on("close", ...)]: on a builtin, [room.players.filter] throws. *)
Definition on_close (w : ws) (s : State) : outcome State :=
  match assoc_get w (clientRoom s) with
  | None => Done s []
  | Some v =>
      if negb (truthy v) then Done s []
      else
        match to_key v with
        | None => Uncaught
        | Some k =>
            match rooms_get s k with
            | Absent => Done s []
            | Inherited => Uncaught
            | Own ps =>
                let left := List.filter
                              (λ q, negb (bool_decide (player_ws q = w))) ps in
                Done (Build
                        (match left with
                         | [] => assoc_delete k (rooms s)
                         | _ => assoc_set k left (rooms s)
                         end)
                        (assoc_delete w (clientRoom s)))
                     []
            end
        end
  end.

Definition initial : State := Build [] [].

(** Runs of the relay.  It keeps no registry: a connection only installs
    the two listeners, so any connection may send a frame or close. *)
Inductive step : State → State → Prop :=
  | step_message s isOpen coin w f s' out :
      on_message isOpen coin w f s = Done s' out → step s s'
  | step_close s w s' out :
      on_close w s = Done s' out → step s s'.

Definition reachable (s : State) : Prop := rtc step initial s.

End Relay.

(** ** The lobby server ([src/unnamed/part_000]) *)

Module Lobby.

Definition set_state (st : status) (c : client) : client :=
  Client (id c) (name c) (avatar c) st.

(** [if (msg.type === "challenge_accept")]; [uuid] is what [uuidv4()]
    returned and [coin] is [Math.random() < 0.5]. *)
Definition challenge_accept (isOpen : ws → bool) (uuid : string) (coin : bool)
    (w : ws) (m : message) (s : State) : outcome State :=
  match find_client (targetId m) (λ _, true) (clients s) with
  | Some (opponentWs, _) =>
      match assoc_get w (clients s) with
      | None => Uncaught
      | Some c =>
          let cs1 := assoc_set w (set_state Playing c) (clients s) in
          match assoc_get opponentWs cs1 with
          | None => Uncaught
          | Some o =>
              let cs2 := assoc_set opponentWs (set_state Playing o) cs1 in
              let p1Color := if coin then White else Black in
              let p2Color := match p1Color with
                             | White => Black
                             | Black => White
                             end in
              match broadcastLobby isOpen cs2 (globalStats s) with
              | Some out =>
                  Done (Build cs2
                          (assoc_set uuid (Room [w; opponentWs] None) (rooms s))
                          (globalStats s) (polluted s))
                    (send isOpen w (GameStart (JStr uuid) p1Color (name o))
                     ++ send isOpen opponentWs
                          (GameStart (JStr uuid) p2Color (name c))
                     ++ out)
              | None => Uncaught
              end
          end
      end
  | None => Done s []
  end.

(** [if (msg.type === "return_lobby")] *)
Definition return_lobby (isOpen : ws → bool) (w : ws) (s : State)
  : outcome State :=
  match assoc_get w (clients s) with
  | None => Uncaught
  | Some c =>
      let cs := assoc_set w (set_state Lobby c) (clients s) in
      match broadcastLobby isOpen cs (globalStats s) with
      | Some out => Done (Build cs (rooms s) (globalStats s) (polluted s)) out
      | None => Uncaught
      end
  end.

(** [ws.on("message", ...)] *)
Definition on_message (isOpen : ws → bool) (uuid : string) (coin : bool)
    (w : ws) (f : frame) (s : State) : outcome State :=
  match f with
  | BadJson => Done s []
  | JsonNull => Uncaught
  | Json m =>
      if is_type m "login" then login isOpen w m s
      else if is_type m "challenge_request" then challenge_request isOpen w m s
      else if is_type m "challenge_accept"
      then challenge_accept isOpen uuid coin w m s
      else if is_type m "move" then relay_move isOpen w m s
      else if is_type m "game_over" then game_over m s
      else if is_type m "return_lobby" then return_lobby isOpen w s
      else Done s []
  end.

(** [ws.on("close", ...)] *)
Definition on_close (isOpen : ws → bool) (w : ws) (s : State)
  : outcome State :=
  let cs := assoc_delete w (clients s) in
  match broadcastLobby isOpen cs (globalStats s) with
  | Some out => Done (Build cs (rooms s) (globalStats s) (polluted s)) out
  | None => Uncaught
  end.

End Lobby.

(** ** The lobby server with private links (second program of
    [src/server.js]) *)

Module Server.

Definition set_playing (c : client) : client :=
  Client (id c) (name c) (avatar c) Playing.

Definition other_color (c : color) : color :=
  match c with White => Black | Black => White end.

(** [startGame(roomId)]; [coin] is [Math.random() < 0.5].  The state
    writes leave [name] alone, so the names sent are those read before
    them. *)
Definition startGame (isOpen : ws → bool) (coin : bool) (roomId : jsval)
    (s : State) : outcome State :=
  match to_key roomId with
  | None => Uncaught
  | Some k =>
      match rooms_get s k with
      | Own (Room [p1; p2] _) =>
          match assoc_get p1 (clients s) with
          | None => Uncaught
          | Some c1 =>
              let cs1 := assoc_set p1 (set_playing c1) (clients s) in
              match assoc_get p2 cs1 with
              | None => Uncaught
              | Some c2 =>
                  let cs2 := assoc_set p2 (set_playing c2) cs1 in
                  let p1Color := if coin then White else Black in
                  let p2Color := other_color p1Color in
                  match broadcastLobby isOpen cs2 (globalStats s) with
                  | Some out =>
                      Done (Build cs2 (rooms s) (globalStats s) (polluted s))
                        (send isOpen p1 (GameStart roomId p1Color (name c2))
                         ++ send isOpen p2 (GameStart roomId p2Color (name c1))
                         ++ out)
                  | None => Uncaught
                  end
              end
          end
      | Own _ => Done s []
      | Inherited => Uncaught
      | Absent => Done s []
      end
  end.

(** [if (msg.type === "create_private")]; [uuid] is what [uuidv4()]
    returned. *)
Definition create_private (isOpen : ws → bool) (uuid : string) (w : ws)
    (m : message) (s : State) : outcome State :=
  match assoc_get w (clients s) with
  | None => Uncaught
  | Some c =>
      Done (Build
              (assoc_set w
                 (Client (id c) (or_else (msg_name m) (JStr "Host"))
                    (msg_avatar m) WaitingPrivate)
                 (clients s))
              (assoc_set uuid (Room [w] (Some true)) (rooms s))
              (globalStats s) (polluted s))
           (send isOpen w (PrivateCreated uuid))
  end.

(** [if (msg.type === "join_private")] *)
Definition join_private (isOpen : ws → bool) (coin : bool) (w : ws)
    (m : message) (s : State) : outcome State :=
  match to_key (roomId m) with
  | None => Uncaught
  | Some k =>
      match rooms_get s k with
      | Own r =>
          if (length (players r) <? 2)%nat then
            match assoc_get w (clients s) with
            | None => Uncaught
            | Some c =>
                startGame isOpen coin (roomId m)
                  (Build
                     (assoc_set w
                        (Client (id c) (or_else (msg_name m) (JStr "Guest"))
                           (msg_avatar m) Playing)
                        (clients s))
                     (assoc_set k (Room (players r ++ [w]) (isPrivate r))
                        (rooms s))
                     (globalStats s) (polluted s))
            end
          else Done s (send isOpen w (Error "Room not found or full"))
      | Inherited => Uncaught
      | Absent => Done s (send isOpen w (Error "Room not found or full"))
      end
  end.

(** [if (msg.type === "challenge_accept")] *)
Definition challenge_accept (isOpen : ws → bool) (uuid : string) (coin : bool)
    (w : ws) (m : message) (s : State) : outcome State :=
  match find_client (targetId m) (λ _, true) (clients s) with
  | Some (opponentWs, _) =>
      startGame isOpen coin (JStr uuid)
        (Build (clients s)
           (assoc_set uuid (Room [w; opponentWs] (Some false)) (rooms s))
           (globalStats s) (polluted s))
  | None => Done s []
  end.

(** [ws.on("message", ...)].  [msg.type] equals at most one of the
    strings tested, so the sequence of [if]s is a chain. *)
Definition on_message (isOpen : ws → bool) (uuid : string) (coin : bool)
    (w : ws) (f : frame) (s : State) : outcome State :=
  match f with
  | BadJson => Done s []
  | JsonNull => Uncaught
  | Json m =>
      if is_type m "login" then login isOpen w m s
      else if is_type m "create_private" then create_private isOpen uuid w m s
      else if is_type m "join_private" then join_private isOpen coin w m s
      else if is_type m "challenge_request" then challenge_request isOpen w m s
      else if is_type m "challenge_accept"
      then challenge_accept isOpen uuid coin w m s
      else if is_type m "move" then relay_move isOpen w m s
      else if is_type m "game_over" then game_over m s
      else Done s []
  end.

(** The loop of the close handler: [for (const roomId in rooms)]. *)
Fixpoint close_rooms (isOpen : ws → bool) (w : ws) (rs : list (string * room))
  : list (string * room) * sent :=
  match rs with
  | [] => ([], [])
  | (k, r) :: rs' =>
      let '(kept, out) := close_rooms isOpen w rs' in
      if bool_decide (w ∈ players r)
      then (kept, send_others isOpen w OpponentDisconnected (players r) ++ out)
      else ((k, r) :: kept, out)
  end.

(** [ws.on("close", ...)].  Once [Object.prototype] has an enumerable
    property, [for ... in] reaches it after the room ids; its value is
    [NaN], and [room.players.includes] throws. *)
Definition on_close (isOpen : ws → bool) (w : ws) (s : State)
  : outcome State :=
  if polluted s then Uncaught
  else
    let '(rs, out) := close_rooms isOpen w (rooms s) in
    let cs := assoc_delete w (clients s) in
    match broadcastLobby isOpen cs (globalStats s) with
    | Some out' => Done (Build cs rs (globalStats s) (polluted s)) (out ++ out')
    | None => Uncaught
    end.

(** ** Runs of the server

    A connection is a fresh object; it sends messages and closes only
    while it is registered.  A handler that throws ends the process, so
    only completed handlers lead to a next state. *)
Inductive step : State → State → Prop :=
  | step_connect s w clientId :
      assoc_get w (clients s) = None →
      is_uuid clientId = true →
      step s (on_connection w clientId s)
  | step_message s isOpen uuid coin w f s' out :
      is_Some (assoc_get w (clients s)) →
      is_uuid uuid = true →
      on_message isOpen uuid coin w f s = Done s' out →
      step s s'
  | step_close s isOpen w s' out :
      is_Some (assoc_get w (clients s)) →
      on_close isOpen w s = Done s' out →
      step s s'.

Definition reachable (s : State) : Prop := rtc step initial s.

End Server.

(** ** Concrete runs *)

Module Scenario.

Definition alice_id : string := "aaaaaaaa-aaaa-4aaa-8aaa-aaaaaaaaaaaa".
Definition bob_id : string := "bbbbbbbb-bbbb-4bbb-8bbb-bbbbbbbbbbbb".
Definition carol_id : string := "eeeeeeee-eeee-4eee-8eee-eeeeeeeeeeee".
Definition room_id : string := "cccccccc-cccc-4ccc-8ccc-cccccccccccc".

Definition all_open : ws → bool := λ _, true.

(** Every socket is open but that of [p], which is closing. *)
Definition closing (p : ws) : ws → bool := λ w, negb (w =? p)%nat.

Definition guest (clientId : string) (st : status) : client :=
  Client clientId (JStr "Guest") (JStr "w_p") st.

(** [{ "type": t }] *)
Definition only_type (t : string) : message :=
  Msg (JStr t) JUndefined JUndefined JUndefined JUndefined JUndefined
    JUndefined JUndefined.

(** [{ "type": "login", "name": n }] *)
Definition login_msg (n : string) : message :=
  Msg (JStr "login") (JStr n) JUndefined JUndefined JUndefined JUndefined
    JUndefined JUndefined.

(** [{ "type": "challenge_accept", "targetId": t }] *)
Definition accept_msg (t : string) : message :=
  Msg (JStr "challenge_accept") JUndefined JUndefined (JStr t) JUndefined
    JUndefined JUndefined JUndefined.

(** [{ "type": "challenge_request", "targetId": t }] *)
Definition request_msg (t : string) : message :=
  Msg (JStr "challenge_request") JUndefined JUndefined (JStr t) JUndefined
    JUndefined JUndefined JUndefined.

(** [{ "type": "move", "roomId": r, "move": v }] *)
Definition move_msg (r v : string) : message :=
  Msg (JStr "move") JUndefined JUndefined JUndefined (JStr r) (JStr v)
    JUndefined JUndefined.

(** [{ "type": "game_over", "winnerName": a, "loserName": b }] *)
Definition game_over_msg (a b : string) : message :=
  Msg (JStr "game_over") JUndefined JUndefined JUndefined JUndefined
    JUndefined (JStr a) (JStr b).

(** Two connections, nobody logged in. *)
Definition two_connected : State :=
  Build [(1, guest alice_id Connecting); (2, guest bob_id Connecting)] [] ∅
    false.

(** 2 has accepted 1. *)
Definition in_game : State :=
  Build [(1, guest alice_id Playing); (2, guest bob_id Playing)]
    [(room_id, Room [2; 1] (Some false))] ∅ false.

(** A third connection has arrived during the game. *)
Definition watched : State :=
  Build [(1, guest alice_id Playing); (2, guest bob_id Playing);
         (3, guest carol_id Connecting)]
    [(room_id, Room [2; 1] (Some false))] ∅ false.

(** 1 has left the game above. *)
Definition survivor : State :=
  Build [(2, guest bob_id Playing)] [] ∅ false.

(** 1 has accepted itself. *)
Definition self_game : State :=
  Build [(1, guest alice_id Playing); (2, guest bob_id Connecting)]
    [(room_id, Room [1; 1] (Some false))] ∅ false.

(** A ledger as it stands after some games. *)
Definition ranked : State :=
  Build (clients in_game) (rooms in_game)
    {[ "Alice" := Stats 3 1; "Bob" := Stats 0 2 ]} false.

(** The lobby server after 2 has accepted 1. *)
Definition lobby_in_game : State :=
  Build [(1, guest alice_id Playing); (2, guest bob_id Playing)]
    [(room_id, Room [2; 1] None)] ∅ false.

Definition second_room_id : string := "dddddddd-dddd-4ddd-8ddd-dddddddddddd".

(** 1 has logged in again during the game with 2. *)
Definition relogged : State :=
  Build [(1, Client alice_id (JStr "Alice") (JStr "w_k") Lobby);
         (2, guest bob_id Playing)]
    [(room_id, Room [2; 1] (Some false))]
    {[ "Alice" := Stats 0 0 ]} false.

End Scenario.

Import Scenario.

(** ** The vocabulary of the properties *)

(** The messages [p] is sent, in order. *)
Definition received (p : ws) (out : sent) : list payload :=
  (filter (λ e, e.1 = p) out).*2.

(** How many times [p] is listed in a member list. *)
Definition occurrences (p : ws) (l : list ws) : nat :=
  length (filter (λ q, q = p) l).

(** What [game_over] with winner [a] and loser [b] does to the record of
    name [n]. *)
Definition credited (a b n : string) (r : stats_record) : stats_record :=
  Stats (wins r + (if decide (n = a) then 1 else 0))
        (losses r + (if decide (n = b) then 1 else 0)).

(** Every connection in the lobby has a name that converts to a property
    key, so [globalStats[data.name]] does not throw. *)
Definition lobby_names_convert (cs : list (ws * client)) : Prop :=
  Forall (λ e, state e.2 = Lobby → is_Some (to_key (name e.2))) cs.

(** The sanitisation in the words of the specification: "truncate to at
    most 15 characters; if empty after trim, substitute Player". *)
Definition is_space (a : ascii) : bool :=
  let n := nat_of_ascii a in ((n =? 32) || (9 <=? n) && (n <=? 13))%nat.

Fixpoint trim_start (l : list ascii) : list ascii :=
  match l with
  | a :: l' => if is_space a then trim_start l' else l
  | [] => []
  end.

Definition spec_trim (n : string) : string :=
  string_of_list_ascii
    (rev (trim_start (rev (trim_start (list_ascii_of_string n))))).

Definition spec_login_name (n : string) : string :=
  let t := String.substring 0 15 n in
  if String.eqb (spec_trim t) "" then "Player" else t.

(** Identities are those of distinct connections. *)
Definition identifies (cs : list (ws * client)) (w : ws) (c : client) : Prop :=
  ∀ w' c', (w', c') ∈ cs → id c' = id c → w' = w.

(** A connection that is registered and past [Connecting]. *)
Definition joined (cs : list (ws * client)) (p : ws) : Prop :=
  ∃ c, assoc_get p cs = Some c ∧ state c ≠ Connecting.

Definition room_ok (cs : list (ws * client)) (r : room) : Prop :=
  1 ≤ length (players r) ≤ 2 ∧ Forall (joined cs) (players r).

Definition rooms_ok (cs : list (ws * client)) (rs : list (string * room))
  : Prop :=
  Forall (λ e, room_ok cs e.2) rs.

Definition keys_ok (rs : list (string * room)) : Prop :=
  NoDup rs.*1 ∧ Forall (λ k, is_uuid k = true) rs.*1.

Record wf (s : State) : Prop := Wf {
  wf_rooms : rooms_ok (clients s) (rooms s);
  wf_keys : keys_ok (rooms s);
  wf_names : lobby_names_convert (clients s)
}.

(** What a completed [startGame] leaves behind. *)
Definition started (v : jsval) (s s' : State) : Prop :=
  rooms s' = rooms s
  ∧ (∀ p, joined (clients s) p → joined (clients s') p)
  ∧ (lobby_names_convert (clients s) → lobby_names_convert (clients s'))
  ∧ (∀ k p1 p2 priv,
       to_key v = Some k →
       assoc_get k (rooms s) = Some (Room [p1; p2] priv) →
       joined (clients s') p1 ∧ joined (clients s') p2).

(** ** The vocabulary of the further properties *)

(** Every message of [out] goes to a socket that is open. *)
Definition sent_open (isOpen : ws → bool) (out : sent) : Prop :=
  ∀ q pl, (q, pl) ∈ out → isOpen q = true.

(** The connections of a registry with their identities, in order. *)
Definition identities (cs : list (ws * client)) : list (ws * string) :=
  (λ e, (e.1, id e.2)) <$> cs.

(** Every record of [g] is still in [g'], with counters at least as
    high. *)
Definition ledger_le (g g' : gmap string stats_record) : Prop :=
  ∀ n r, g !! n = Some r →
    ∃ r', g' !! n = Some r' ∧ (wins r ≤ wins r')%N ∧ (losses r ≤ losses r')%N.

(** A name as [login] stores it. *)
Definition login_name (v : jsval) : Prop :=
  ∃ n, v = JStr n ∧ n ≠ EmptyString ∧ String.length n ≤ 15.

Definition lobby_names_short (cs : list (ws * client)) : Prop :=
  Forall (λ e, state e.2 = Lobby → login_name (name e.2)) cs.

(** Every room of [rs] is still in [rs'], with at least its members. *)
Definition rooms_le (rs rs' : list (string * room)) : Prop :=
  ∀ k r, assoc_get k rs = Some r →
    ∃ r', assoc_get k rs' = Some r' ∧ ∀ p, p ∈ players r → p ∈ players r'.

(** The two lobby servers' rooms up to the [isPrivate] field. *)
Definition same_members (rs rs' : list (string * room)) : Prop :=
  (λ e, (e.1, players e.2)) <$> rs = (λ e, (e.1, players e.2)) <$> rs'.

(** A room of the relay: one player, or two with the two colours. *)
Definition relay_room_ok (ps : list Relay.player) : Prop :=
  match ps with
  | [_] => True
  | [q0; q1] =>
      ∃ c, Relay.player_color q0 = Some c
           ∧ Relay.player_color q1 = Some (Server.other_color c)
  | _ => False
  end.

Definition relay_rooms_ok (s : Relay.State) : Prop :=
  Forall (λ e, relay_room_ok e.2) (Relay.rooms s).

(** [{ "type": "join", "roomId": r, "name": n }] *)
Definition join_msg (r n : string) : message :=
  Msg (JStr "join") (JStr n) JUndefined JUndefined (JStr r) JUndefined
    JUndefined JUndefined.

(** [{ "type": "create_private", "name": n, "avatar": a }] *)
Definition create_private_msg (n a : string) : message :=
  Msg (JStr "create_private") (JStr n) (JStr a) JUndefined JUndefined
    JUndefined JUndefined JUndefined.

(** [{ "type": "join_private", "roomId": r, "name": n, "avatar": a }] *)
Definition join_private_msg (r n a : string) : message :=
  Msg (JStr "join_private") (JStr n) (JStr a) JUndefined (JStr r)
    JUndefined JUndefined JUndefined.

(** The relay with one player waiting in room ["den"]. *)
Definition relay_waiting : Relay.State :=
  Relay.Build [("den", [Relay.Player 1 (JStr "Ann") None])]
    [(1, JStr "den")].

(** The relay with a game on in room ["den"]. *)
Definition relay_playing : Relay.State :=
  Relay.Build
    [("den", [Relay.Player 1 (JStr "Ann") (Some White);
              Relay.Player 2 (JStr "Ben") (Some Black)])]
    [(1, JStr "den"); (2, JStr "den")].



(** [ranked] after Alice has beaten Bob once more. *)
Definition ranked_again : State :=
  Build (clients in_game) (rooms in_game)
    {[ "Alice" := Stats 4 1; "Bob" := Stats 0 3 ]} false.

(** * Properties *)

Example uuid_ok : is_uuid "3b241101-e2bb-4255-8caf-4136c566a962" = true.
Proof. reflexivity. Qed.

Lemma uuid_not_inherited k : is_uuid k = true → inherits k = false.
Proof.
  intros Hk. unfold inherits. apply bool_decide_eq_false. intros Hin.
  unfold object_prototype_keys in Hin.
  repeat (apply elem_of_cons in Hin as [-> | Hin]; [discriminate Hk|]).
  by apply elem_of_nil in Hin.
Qed.

(** ** Insertion-ordered maps *)

Section AssocFacts.
Context {K A : Type} `{EqDecision K}.
Implicit Types (k : K) (a : A) (l : list (K * A)).

Lemma assoc_get_set_eq k a l : assoc_get k (assoc_set k a l) = Some a.
Proof.
  induction l as [|[k' a'] l IH]; simpl.
  - by rewrite decide_True.
  - destruct (decide (k = k')) as [->|Hne]; simpl.
    + by rewrite decide_True.
    + by rewrite decide_False.
Qed.

Lemma assoc_get_set_ne k k' a l :
  k ≠ k' → assoc_get k' (assoc_set k a l) = assoc_get k' l.
Proof.
  intros Hne. induction l as [|[k0 a0] l IH]; simpl.
  - rewrite decide_False; [done | congruence].
  - destruct (decide (k = k0)) as [->|Hk]; simpl.
    + rewrite !decide_False; [done | congruence | congruence].
    + destruct (decide (k' = k0)); [done | apply IH].
Qed.

Lemma assoc_get_set k k' a l :
  assoc_get k' (assoc_set k a l)
  = if decide (k = k') then Some a else assoc_get k' l.
Proof.
  destruct (decide (k = k')) as [->|Hne].
  - apply assoc_get_set_eq.
  - by apply assoc_get_set_ne.
Qed.

Lemma assoc_get_delete_eq k l : assoc_get k (assoc_delete k l) = None.
Proof.
  induction l as [|[k' a'] l IH]; simpl; [done|].
  destruct (decide (k = k')) as [->|Hne]; simpl; [done|].
  by rewrite decide_False.
Qed.

Lemma assoc_get_delete_ne k k' l :
  k ≠ k' → assoc_get k' (assoc_delete k l) = assoc_get k' l.
Proof.
  intros Hne. induction l as [|[k0 a0] l IH]; simpl; [done|].
  destruct (decide (k = k0)) as [->|Hk]; simpl.
  - rewrite decide_False; [apply IH | congruence].
  - destruct (decide (k' = k0)); [done | apply IH].
Qed.

Lemma assoc_get_elem_of k a l : assoc_get k l = Some a → (k, a) ∈ l.
Proof.
  induction l as [|[k' a'] l IH]; simpl; [done|].
  destruct (decide (k = k')) as [->|Hne].
  - intros [= ->]. apply elem_of_cons. by left.
  - intros Hl. apply elem_of_cons. right. by apply IH.
Qed.

Lemma assoc_get_None k l : assoc_get k l = None → k ∉ l.*1.
Proof.
  induction l as [|[k' a'] l IH]; simpl.
  - intros _. apply not_elem_of_nil.
  - destruct (decide (k = k')) as [->|Hne]; [done|].
    intros Hl. apply not_elem_of_cons. split; [done | by apply IH].
Qed.

Lemma assoc_get_NoDup k a l :
  NoDup l.*1 → (k, a) ∈ l → assoc_get k l = Some a.
Proof.
  induction l as [|[k' a'] l IH]; simpl.
  - intros _ Hin. by apply elem_of_nil in Hin.
  - intros Hnd Hin. apply NoDup_cons in Hnd as [Hk' Hnd].
    apply elem_of_cons in Hin as [[= -> ->]|Hin].
    + by rewrite decide_True.
    + destruct (decide (k = k')) as [->|Hne]; [|by apply IH].
      exfalso. apply Hk'. apply list_elem_of_fmap. by exists (k', a).
Qed.

Lemma elem_of_assoc_set k a l e :
  e ∈ assoc_set k a l → e = (k, a) ∨ e ∈ l.
Proof.
  induction l as [|[k' a'] l IH]; simpl.
  - intros Hin. apply list_elem_of_singleton in Hin. by left.
  - destruct (decide (k = k')) as [->|Hne]; intros Hin;
      apply elem_of_cons in Hin as [->|Hin]; auto.
    + right. apply elem_of_cons. by right.
    + right. apply elem_of_cons. by left.
    + destruct (IH Hin) as [->|Hl]; [by left|].
      right. apply elem_of_cons. by right.
Qed.

Lemma elem_of_assoc_delete k l e :
  e ∈ assoc_delete k l → e ∈ l ∧ e.1 ≠ k.
Proof.
  induction l as [|[k' a'] l IH]; simpl.
  - intros Hin. by apply elem_of_nil in Hin.
  - destruct (decide (k = k')) as [->|Hne]; intros Hin.
    + destruct (IH Hin) as [Hl Hk]. split; [|done].
      apply elem_of_cons. by right.
    + apply elem_of_cons in Hin as [->|Hin].
      * split; [apply elem_of_cons; by left | simpl; congruence].
      * destruct (IH Hin) as [Hl Hk]. split; [|done].
        apply elem_of_cons. by right.
Qed.
End AssocFacts.

(** ** What a connection receives *)

Lemma occurrences_not_elem p l : p ∉ l → occurrences p l = 0.
Proof.
  unfold occurrences. induction l as [|q l IH]; [done|].
  intros Hp. apply not_elem_of_cons in Hp as [Hne Hp].
  rewrite filter_cons_False by congruence. by apply IH.
Qed.

Lemma occurrences_NoDup p l : NoDup l → p ∈ l → occurrences p l = 1.
Proof.
  induction l as [|q l IH]; intros Hnd Hp; [by apply elem_of_nil in Hp|].
  apply NoDup_cons in Hnd as [Hq Hnd].
  destruct (decide (q = p)) as [->|Hqp].
  - unfold occurrences. rewrite filter_cons_True by done. simpl.
    f_equal. by apply occurrences_not_elem.
  - unfold occurrences. rewrite filter_cons_False by done.
    apply elem_of_cons in Hp as [->|Hp]; [done|]. by apply IH.
Qed.

Lemma received_nil p : received p [] = [].
Proof. done. Qed.

Lemma received_app p out1 out2 :
  received p (out1 ++ out2) = received p out1 ++ received p out2.
Proof. unfold received. by rewrite filter_app, fmap_app. Qed.

Lemma received_send isOpen p q pl :
  received p (send isOpen q pl)
  = if decide (q = p) then if isOpen q then [pl] else [] else [].
Proof.
  unfold received, send. destruct (isOpen q); simpl.
  - rewrite filter_cons, filter_nil. simpl. by destruct (decide (q = p)).
  - by destruct (decide (q = p)).
Qed.

Lemma received_send_others isOpen w p pl l :
  received p (send_others isOpen w pl l)
  = if decide (p = w) then []
    else if isOpen p then replicate (occurrences p l) pl else [].
Proof.
  unfold send_others, occurrences. induction l as [|q l IH]; simpl.
  - rewrite received_nil. destruct (decide (p = w)); [done|].
    by destruct (isOpen p).
  - rewrite received_app, IH, filter_cons. clear IH.
    destruct (decide (q = w)) as [->|Hqw].
    + rewrite received_nil. simpl.
      destruct (decide (p = w)) as [->|Hpw]; [done|].
      by rewrite decide_False by congruence.
    + rewrite received_send.
      destruct (decide (q = p)) as [->|Hqp].
      * destruct (decide (p = w)); [done|]. by destruct (isOpen p).
      * done.
Qed.

Lemma elem_of_send_others isOpen w pl l q pl' :
  (q, pl') ∈ send_others isOpen w pl l →
  pl' = pl ∧ q ≠ w ∧ q ∈ l ∧ isOpen q = true.
Proof.
  unfold send_others. intros Hin.
  apply list_elem_of_In, in_flat_map in Hin as (x & Hx & Hin).
  apply list_elem_of_In in Hx.
  destruct (decide (x = w)) as [->|Hne]; [by destruct Hin|].
  unfold send in Hin. destruct (isOpen x) eqn:Hopen; [|by destruct Hin].
  destruct Hin as [[= <- <-]|[]]. done.
Qed.

Lemma push_lobby_payload isOpen pl cs q pl' :
  (q, pl') ∈ push_lobby isOpen pl cs → pl' = pl.
Proof.
  induction cs as [|[w c] cs IH]; simpl.
  - intros Hin. by apply elem_of_nil in Hin.
  - intros Hin. apply elem_of_app in Hin as [Hin|Hin]; [|by apply IH].
    destruct (is_lobby c && isOpen w).
    + apply list_elem_of_singleton in Hin. congruence.
    + by apply elem_of_nil in Hin.
Qed.

(** A lobby broadcast carries [lobby_update] messages only. *)
Lemma broadcastLobby_payload isOpen cs g out q pl :
  broadcastLobby isOpen cs g = Some out → (q, pl) ∈ out →
  ∃ l, pl = LobbyUpdate l.
Proof.
  unfold broadcastLobby. destruct (lobbyList g cs) as [l|]; simpl; [|done].
  intros [= <-] Hin. exists l. by eapply push_lobby_payload.
Qed.

Lemma is_type_eq m t t' : type m = JStr t → is_type m t' = String.eqb t t'.
Proof. unfold is_type. by intros ->. Qed.

(** ** Concrete runs *)

Lemma two_connected_reachable : Server.reachable two_connected.
Proof.
  unfold Server.reachable.
  eapply rtc_l; [apply (Server.step_connect _ 1 alice_id); reflexivity|].
  eapply rtc_l; [apply (Server.step_connect _ 2 bob_id); reflexivity|].
  apply rtc_refl.
Qed.

Lemma in_game_reachable : Server.reachable in_game.
Proof.
  eapply rtc_r; [apply two_connected_reachable|].
  eapply (Server.step_message _ all_open room_id true 2
            (Json (accept_msg alice_id))); [by eexists | reflexivity|].
  reflexivity.
Qed.

Lemma watched_reachable : Server.reachable watched.
Proof.
  eapply rtc_r; [apply in_game_reachable|].
  change watched with (on_connection 3 carol_id in_game).
  apply Server.step_connect; reflexivity.
Qed.

Lemma survivor_reachable : Server.reachable survivor.
Proof.
  eapply rtc_r; [apply in_game_reachable|].
  eapply (Server.step_close _ all_open 1); [by eexists|]. reflexivity.
Qed.


(** The scenario of the specification: Alice and Bob log in, Alice
    challenges Bob, Bob accepts, Alice moves, Alice disconnects. *)
Example lobby_scenario :
  ∃ s1 s2 s3 s4 out1 out2,
    Server.on_message all_open room_id true 1 (Json (login_msg "Alice"))
      two_connected = Done s1 out1
    ∧ received 1 out1
      = [LoginSuccess alice_id;
         LobbyUpdate
           [LobbyEntry alice_id (JStr "Alice") (JStr "w_k") (Some (Stats 0 0))]]
    ∧ Server.on_message all_open room_id true 2 (Json (login_msg "Bob")) s1
      = Done s2 out2
    ∧ received 1 out2
      = [LobbyUpdate
           [LobbyEntry alice_id (JStr "Alice") (JStr "w_k") (Some (Stats 0 0));
            LobbyEntry bob_id (JStr "Bob") (JStr "w_k") (Some (Stats 0 0))]]
    ∧ received 2 out2 = LoginSuccess bob_id :: received 1 out2
    ∧ Server.on_message all_open room_id true 1
        (Json (request_msg bob_id)) s2
      = Done s2 [(2, ChallengeReceived alice_id (JStr "Alice"))]
    ∧ Server.on_message all_open room_id true 2
        (Json (accept_msg alice_id)) s2
      = Done s3 [(2, GameStart (JStr room_id) White (JStr "Alice"));
                 (1, GameStart (JStr room_id) Black (JStr "Bob"))]
    ∧ Server.on_message all_open room_id true 1
        (Json (move_msg room_id "e2e4")) s3
      = Done s3 [(2, Move (JStr "e2e4"))]
    ∧ Server.on_close all_open 1 s3 = Done s4 [(2, OpponentDisconnected)]
    ∧ status_of 2 s4 = Some Playing.
Proof.
  eexists _, _, _, _, _, _.
  split; [reflexivity|]. split; [reflexivity|].
  split; [reflexivity|]. split; [reflexivity|]. split; [reflexivity|].
  split; [reflexivity|]. split; [reflexivity|]. split; [reflexivity|].
  split; reflexivity.
Qed.

(** ** The move relay *)













(** ** Frames with missing fields *)

(** C4.  A frame that is not JSON is dropped without a reply, but a
    [login] without a [name] and the frame [null] make the handler throw
    whatever the state, and so does a [move] whose [roomId] is
    ["constructor"]. *)
Theorem login_without_name_throws isOpen uuid coin (w : ws) (s : State) :
  Server.on_message isOpen uuid coin w BadJson s = Done s []
  ∧ Server.on_message isOpen uuid coin w (Json (only_type "login")) s
    = Uncaught
  ∧ Server.on_message isOpen uuid coin w JsonNull s = Uncaught
  ∧ Server.on_message isOpen uuid coin w
      (Json (move_msg "constructor" "e2e4")) in_game = Uncaught.
Proof. done. Qed.

(** ** The stats ledger *)

Lemma incr_safe n : (n < max_safe)%N → incr n = (n + 1)%N.
Proof. intros Hn. unfold incr. by apply N.ltb_lt in Hn as ->. Qed.

Lemma bump_lookup f k (g : gmap string stats_record) n :
  bump f k g !! n = (if decide (n = k) then f else λ r, r) <$> g !! n.
Proof.
  unfold bump, stats_get, get_property.
  destruct (decide (n = k)) as [->|Hne].
  - destruct (g !! k) as [r|] eqn:Hg.
    + by rewrite lookup_insert_eq.
    + destruct (inherits k); by rewrite Hg.
  - destruct (g !! k) as [r|].
    + rewrite lookup_insert_ne by done. by destruct (g !! n).
    + destruct (inherits k); by destruct (g !! n).
Qed.

(** X20.  A [game_over] sends nothing and leaves the connections and the
    rooms as they are.  In the ledger, a name with a record keeps it, with
    [wins] one higher exactly when it is the winner's name and [losses]
    one higher exactly when it is the loser's name; a name without a
    record still has none.  Counters are doubles, exact below [2^53].
    Unless a name is ["__proto__"], nothing else changes either. *)
Lemma game_over_stats isOpen uuid coin (w : ws) (m : message) (s : State)
    (a b : string) :
  type m = JStr "game_over" →
  to_key (winnerName m) = Some a →
  to_key (loserName m) = Some b →
  (∀ r, globalStats s !! a = Some r → (wins r < max_safe)%N) →
  (∀ r, globalStats s !! b = Some r → (losses r < max_safe)%N) →
  ∃ s',
    Server.on_message isOpen uuid coin w (Json m) s = Done s' []
    ∧ clients s' = clients s
    ∧ rooms s' = rooms s
    ∧ (a ≠ "__proto__" → b ≠ "__proto__" → polluted s' = polluted s)
    ∧ ∀ n, globalStats s' !! n = credited a b n <$> globalStats s !! n.
Proof.
  intros Hty Ha Hb Hwins Hlosses. unfold Server.on_message.
  rewrite !(is_type_eq _ _ _ Hty). simpl.
  unfold game_over. rewrite Ha, Hb.
  eexists. split; [done|]. split; [done|]. split; [done|]. split.
  { intros Hpa Hpb. simpl. unfold pollutes.
    apply String.eqb_neq in Hpa as ->. apply String.eqb_neq in Hpb as ->.
    destruct (polluted s), (stats_get _ a), (stats_get _ b); done. }
  intros n. simpl. rewrite !bump_lookup. unfold credited.
  destruct (globalStats s !! n) as [[wn ln]|] eqn:Hn; [|done]. simpl.
  f_equal.
  destruct (decide (n = a)) as [Hna|Hna], (decide (n = b)) as [Hnb|Hnb];
    simplify_eq; simpl; unfold win, lose; simpl.
  - specialize (Hwins _ Hn). specialize (Hlosses _ Hn). simpl in *.
    by rewrite !incr_safe.
  - specialize (Hwins _ Hn). simpl in *.
    by rewrite incr_safe, N.add_0_r.
  - specialize (Hlosses _ Hn). simpl in *.
    by rewrite incr_safe, N.add_0_r.
  - by rewrite !N.add_0_r.
Qed.

Lemma game_over_stats_witness :
  (type (game_over_msg "Alice" "Carol") = JStr "game_over"
   ∧ to_key (winnerName (game_over_msg "Alice" "Carol")) = Some "Alice"
   ∧ to_key (loserName (game_over_msg "Alice" "Carol")) = Some "Carol"
   ∧ (∀ r, globalStats ranked !! "Alice" = Some r → (wins r < max_safe)%N)
   ∧ (∀ r, globalStats ranked !! "Carol" = Some r → (losses r < max_safe)%N))
  ∧ ∃ s',
      Server.on_message all_open room_id true 1
        (Json (game_over_msg "Alice" "Carol")) ranked = Done s' []
      ∧ clients s' = clients ranked
      ∧ rooms s' = rooms ranked
      ∧ ("Alice" ≠ "__proto__" → "Carol" ≠ "__proto__" →
         polluted s' = polluted ranked)
      ∧ ∀ n, globalStats s' !! n
             = credited "Alice" "Carol" n <$> globalStats ranked !! n.
Proof.
  assert (∀ r, globalStats ranked !! "Alice" = Some r → (wins r < max_safe)%N)
    as Hwins by (intros r [= <-]; reflexivity).
  assert (∀ r, globalStats ranked !! "Carol" = Some r → (losses r < max_safe)%N)
    as Hlosses by (intros r [=]).
  split; [done|].
  exact (game_over_stats all_open room_id true 1
           (game_over_msg "Alice" "Carol") ranked "Alice" "Carol"
           eq_refl eq_refl eq_refl Hwins Hlosses).
Defined.

(** C7.  A [game_over] whose winner is named ["__proto__"], a name
    without a record, still writes: [globalStats["__proto__"]] is
    [Object.prototype], which gets an enumerable [wins] property.  The
    ledger, the rooms and the connections are as before, but from then on
    the close handler throws, where before it completed. *)
Theorem game_over_writes_prototype :
  globalStats ranked !! "__proto__" = None
  ∧ ∃ s',
      Server.on_message all_open room_id true 2
        (Json (game_over_msg "__proto__" "Carol")) ranked = Done s' []
      ∧ globalStats s' = globalStats ranked
      ∧ rooms s' = rooms ranked
      ∧ clients s' = clients ranked
      ∧ polluted ranked = false
      ∧ polluted s' = true
      ∧ Server.on_close all_open 1 ranked
        = Done (Build [(2, guest bob_id Playing)] [] (globalStats ranked) false)
            [(2, OpponentDisconnected)]
      ∧ Server.on_close all_open 1 s' = Uncaught.
Proof. split; [done|]. eexists. split; [reflexivity|]. done. Qed.

Example game_over_alice_beats_bob :
  ∃ s',
    Server.on_message all_open room_id true 1
      (Json (game_over_msg "Alice" "Bob")) ranked = Done s' []
    ∧ globalStats s' !! "Alice" = Some (Stats 4 1)
    ∧ globalStats s' !! "Bob" = Some (Stats 0 3)
    ∧ globalStats s' !! "Carol" = None.
Proof. eexists. split; [reflexivity|]. done. Qed.

(** ** The lobby broadcast *)

Lemma lobbyList_is_Some g cs :
  lobby_names_convert cs → is_Some (lobbyList g cs).
Proof.
  unfold lobby_names_convert. induction 1 as [|[w c] cs Hc _ IH]; simpl.
  - by eexists.
  - unfold is_lobby. destruct (decide (state c = Lobby)) as [Hl|Hl].
    + rewrite bool_decide_eq_true_2 by done.
      destruct (Hc Hl) as [k Hk]. unfold lobby_entry_of. simpl in Hk.
      rewrite Hk. simpl. destruct IH as [l ->]. by eexists.
    + by rewrite bool_decide_eq_false_2.
Qed.

Lemma broadcastLobby_is_Some isOpen g cs :
  lobby_names_convert cs →
  ∃ l, lobbyList g cs = Some l
       ∧ broadcastLobby isOpen cs g = Some (push_lobby isOpen (LobbyUpdate l) cs).
Proof.
  intros Hcs. destruct (lobbyList_is_Some g cs Hcs) as [l Hl].
  exists l. split; [done|]. unfold broadcastLobby. by rewrite Hl.
Qed.

(** The snapshot lists exactly the connections in the lobby. *)
Lemma lobbyList_elem_of g cs l e :
  lobbyList g cs = Some l →
  e ∈ l ↔ ∃ w c, (w, c) ∈ cs ∧ state c = Lobby
                 ∧ lobby_entry_of g c = Some e.
Proof.
  revert l. induction cs as [|[w c] cs IH]; simpl; intros l Hl.
  - injection Hl as <-. split.
    + intros Hin. by apply elem_of_nil in Hin.
    + intros (w & c & Hin & _). by apply elem_of_nil in Hin.
  - unfold is_lobby in Hl.
    destruct (decide (state c = Lobby)) as [Hc|Hc].
    + rewrite bool_decide_eq_true_2 in Hl by done.
      destruct (lobby_entry_of g c) as [e0|] eqn:He0; simpl in Hl; [|done].
      destruct (lobbyList g cs) as [l'|]; simpl in Hl; [|done].
      injection Hl as <-. rewrite elem_of_cons, (IH l' eq_refl). split.
      * intros [->|(w' & c' & Hin & Hst & He)].
        -- exists w, c. split; [apply elem_of_cons; by left | done].
        -- exists w', c'. split; [apply elem_of_cons; by right | done].
      * intros (w' & c' & Hin & Hst & He).
        apply elem_of_cons in Hin as [[= -> ->]|Hin].
        -- left. congruence.
        -- right. by exists w', c'.
    + rewrite bool_decide_eq_false_2 in Hl by done.
      rewrite (IH l Hl). split.
      * intros (w' & c' & Hin & Hst & He).
        exists w', c'. split; [apply elem_of_cons; by right | done].
      * intros (w' & c' & Hin & Hst & He).
        apply elem_of_cons in Hin as [[= -> ->]|Hin]; [done|].
        by exists w', c'.
Qed.

Lemma lobby_entry_of_fields g c e :
  lobby_entry_of g c = Some e →
  entry_id e = id c ∧ entry_name e = name c ∧ entry_avatar e = avatar c.
Proof.
  unfold lobby_entry_of. destruct (to_key (name c)); simpl; [|done].
  by intros [= <-].
Qed.

Lemma lobby_names_convert_set w c cs :
  lobby_names_convert cs →
  (state c = Lobby → is_Some (to_key (name c))) →
  lobby_names_convert (assoc_set w c cs).
Proof.
  unfold lobby_names_convert. intros Hcs Hc.
  apply Forall_forall. intros e He.
  apply elem_of_assoc_set in He as [->|He]; [done|].
  by eapply Forall_forall in Hcs.
Qed.

Lemma lobby_names_convert_delete w cs :
  lobby_names_convert cs → lobby_names_convert (assoc_delete w cs).
Proof.
  unfold lobby_names_convert. intros Hcs.
  apply Forall_forall. intros e He.
  apply elem_of_assoc_delete in He as [He _].
  by eapply Forall_forall in Hcs.
Qed.

(** Who a broadcast of [p] reaches. *)
Lemma elem_of_push_lobby isOpen p cs q :
  (q, p) ∈ push_lobby isOpen p cs
  ↔ ∃ c, (q, c) ∈ cs ∧ state c = Lobby ∧ isOpen q = true.
Proof.
  induction cs as [|[w c] cs IH]; simpl.
  - split; [intros H | intros (c & H & _)]; by apply elem_of_nil in H.
  - rewrite elem_of_app, IH. unfold is_lobby. split.
    + intros [Hin|(c' & Hin & Hc)].
      * destruct (decide (state c = Lobby)) as [Hl|Hl].
        -- rewrite bool_decide_eq_true_2 in Hin by done. simpl in Hin.
           destruct (isOpen w) eqn:Hw; [|by apply elem_of_nil in Hin].
           apply list_elem_of_singleton in Hin. injection Hin as ->.
           exists c. split; [apply elem_of_cons; by left | done].
        -- rewrite bool_decide_eq_false_2 in Hin by done.
           by apply elem_of_nil in Hin.
      * exists c'. split; [apply elem_of_cons; by right | done].
    + intros (c' & Hin & Hl & Hq).
      apply elem_of_cons in Hin as [[= -> ->]|Hin].
      * left. rewrite bool_decide_eq_true_2 by done. rewrite Hq. simpl.
        by apply list_elem_of_singleton.
      * right. by exists c'.
Qed.

(** ** Login *)

Lemma substring_0_length k n : String.length (String.substring 0 k n) ≤ k.
Proof.
  revert n. induction k as [|k IH]; intros [|a n]; simpl; try lia.
  specialize (IH n). lia.
Qed.

Lemma safe_login_name_eq n :
  safe_login_name n
  = if decide (n = EmptyString) then "Player" else String.substring 0 15 n.
Proof. unfold safe_login_name. by destruct n. Qed.

Lemma safe_login_name_length n : String.length (safe_login_name n) ≤ 15.
Proof.
  rewrite safe_login_name_eq. destruct (decide (n = EmptyString)).
  - simpl. lia.
  - apply substring_0_length.
Qed.

(** C9, as stated, fails for a name of blanks: it is empty after
    trimming, so the stored name should be ["Player"], but the blanks are
    stored. *)
Lemma login_keeps_blank_name :
  spec_trim "   " = EmptyString
  ∧ spec_login_name "   " = "Player"
  ∧ ∃ s' out,
      Server.on_message all_open room_id true 1 (Json (login_msg "   "))
        two_connected = Done s' out
      ∧ name <$> assoc_get 1 (clients s') = Some (JStr "   ").
Proof.
  split; [reflexivity|]. split; [reflexivity|].
  eexists _, _. split; reflexivity.
Qed.

(** C9, amended.  A [login] whose [name] is a string stores its first 15
    characters, or ["Player"] when the name is the empty string (nothing
    is trimmed); a stats record of zeros is created for the stored name
    when the ledger has none and a present record is left as it is; the
    status becomes [Lobby]; rooms and other connections are untouched; the
    sender is sent [login_success] with its identity, and then the lobby
    snapshot, which lists the sender, goes to every connection in the
    lobby. *)
Theorem login_effect isOpen uuid coin (w : ws) (m : message) (s : State)
    (c : client) (n : string) :
  type m = JStr "login" →
  msg_name m = JStr n →
  assoc_get w (clients s) = Some c →
  lobby_names_convert (clients s) →
  ∃ s' l stored,
    Server.on_message isOpen uuid coin w (Json m) s
    = Done s' (send isOpen w (LoginSuccess (id c))
               ++ push_lobby isOpen (LobbyUpdate l) (clients s'))
    ∧ lobbyList (globalStats s') (clients s') = Some l
    ∧ stored = (if decide (n = EmptyString) then "Player"
                else String.substring 0 15 n)
    ∧ String.length stored ≤ 15
    ∧ assoc_get w (clients s')
      = Some (Client (id c) (JStr stored)
                (or_else (msg_avatar m) (JStr "w_k")) Lobby)
    ∧ match globalStats s !! stored with
      | Some _ => globalStats s' = globalStats s
      | None =>
          inherits stored = false →
          globalStats s' = <[stored := Stats 0 0]> (globalStats s)
      end
    ∧ (∃ e, e ∈ l ∧ entry_id e = id c ∧ entry_name e = JStr stored)
    ∧ rooms s' = rooms s
    ∧ ∀ w', w' ≠ w → assoc_get w' (clients s') = assoc_get w' (clients s).
Proof.
  intros Hty Hn Hc Hnames. unfold Server.on_message.
  rewrite !(is_type_eq _ _ _ Hty). simpl.
  unfold login. rewrite Hn, Hc.
  set (stored := safe_login_name n).
  set (c' := Client (id c) (JStr stored) (or_else (msg_avatar m) (JStr "w_k"))
               Lobby).
  set (g' := match stats_get (globalStats s) stored with
             | Absent => <[stored := Stats 0 0]> (globalStats s)
             | _ => globalStats s
             end).
  assert (lobby_names_convert (assoc_set w c' (clients s))) as Hnames'.
  { apply lobby_names_convert_set; [done|]. intros _. by eexists. }
  destruct (broadcastLobby_is_Some isOpen g' _ Hnames') as (l & Hl & ->).
  exists (Build (assoc_set w c' (clients s)) (rooms s) g' (polluted s)), l, stored.
  simpl. split; [done|]. split; [done|].
  split; [apply safe_login_name_eq|].
  split; [apply safe_login_name_length|].
  split; [apply assoc_get_set_eq|].
  split; [|split; [|split]].
  - subst g'. unfold stats_get, get_property.
    destruct (globalStats s !! stored); [done|]. by intros ->.
  - exists (LobbyEntry (id c) (JStr stored)
              (or_else (msg_avatar m) (JStr "w_k"))
              (match stats_get g' stored with
               | Own r => Some r
               | Inherited => None
               | Absent => Some (Stats 0 0)
               end)).
    split; [|done].
    apply (lobbyList_elem_of _ _ _ _ Hl). exists w, c'.
    split; [|done]. apply assoc_get_elem_of, assoc_get_set_eq.
  - done.
  - intros w' Hne. by apply assoc_get_set_ne.
Qed.

Lemma login_effect_witness :
  (type (login_msg "Bartholomew the Great") = JStr "login"
   ∧ msg_name (login_msg "Bartholomew the Great")
     = JStr "Bartholomew the Great"
   ∧ assoc_get 1 (clients two_connected) = Some (guest alice_id Connecting)
   ∧ lobby_names_convert (clients two_connected))
  ∧ ∃ s' l stored,
      Server.on_message all_open room_id true 1
        (Json (login_msg "Bartholomew the Great")) two_connected
      = Done s' (send all_open 1 (LoginSuccess alice_id)
                 ++ push_lobby all_open (LobbyUpdate l) (clients s'))
      ∧ lobbyList (globalStats s') (clients s') = Some l
      ∧ stored = "Bartholomew the"
      ∧ String.length stored ≤ 15
      ∧ assoc_get 1 (clients s')
        = Some (Client alice_id (JStr stored) (JStr "w_k") Lobby)
      ∧ (inherits stored = false →
         globalStats s' = <[stored := Stats 0 0]> ∅)
      ∧ (∃ e, e ∈ l ∧ entry_id e = alice_id ∧ entry_name e = JStr stored)
      ∧ rooms s' = []
      ∧ ∀ w', w' ≠ 1 →
          assoc_get w' (clients s') = assoc_get w' (clients two_connected).
Proof.
  assert (lobby_names_convert (clients two_connected)) as Hnames.
  { repeat constructor; simpl; discriminate. }
  split; [done|].
  exact (login_effect all_open room_id true 1
           (login_msg "Bartholomew the Great") two_connected
           (guest alice_id Connecting) "Bartholomew the Great"
           eq_refl eq_refl eq_refl Hnames).
Defined.

(** ** Return to the lobby ([src/unnamed/part_000]) *)

(** C6, as stated, fails: after [return_lobby] the sender is still listed
    in its room, and the room is still in the table. *)
Lemma return_lobby_keeps_membership :
  (∃ out, Lobby.on_message all_open room_id true 2
            (Json (accept_msg alice_id)) two_connected
          = Done lobby_in_game out)
  ∧ ∃ s' out,
      Lobby.on_message all_open room_id true 1
        (Json (only_type "return_lobby")) lobby_in_game = Done s' out
      ∧ status_of 1 s' = Some Lobby
      ∧ rooms s' = [(room_id, Room [2; 1] None)]
      ∧ sessions_of 1 s' = [room_id].
Proof.
  split; [eexists; reflexivity|].
  eexists _, _. split; [reflexivity|]. done.
Qed.

(** C6, amended.  A [return_lobby] sets the sender's status to [Lobby],
    leaves its name, avatar and identity, every other connection, the
    rooms (the sender stays a member of its room, and no room is removed)
    and the ledger as they are, and then sends the lobby snapshot, which
    lists the sender, to every connection in the lobby. *)
Theorem return_lobby_effect isOpen uuid coin (w : ws) (m : message)
    (s : State) (c : client) :
  type m = JStr "return_lobby" →
  assoc_get w (clients s) = Some c →
  is_Some (to_key (name c)) →
  lobby_names_convert (clients s) →
  ∃ s' l,
    Lobby.on_message isOpen uuid coin w (Json m) s
    = Done s' (push_lobby isOpen (LobbyUpdate l) (clients s'))
    ∧ lobbyList (globalStats s') (clients s') = Some l
    ∧ assoc_get w (clients s') = Some (Client (id c) (name c) (avatar c) Lobby)
    ∧ (∃ e, e ∈ l ∧ entry_id e = id c ∧ entry_name e = name c)
    ∧ rooms s' = rooms s
    ∧ sessions_of w s' = sessions_of w s
    ∧ globalStats s' = globalStats s
    ∧ ∀ w', w' ≠ w → assoc_get w' (clients s') = assoc_get w' (clients s).
Proof.
  intros Hty Hc Hkey Hnames. unfold Lobby.on_message.
  rewrite !(is_type_eq _ _ _ Hty). simpl.
  unfold Lobby.return_lobby. rewrite Hc.
  set (c' := Lobby.set_state Lobby c).
  assert (lobby_names_convert (assoc_set w c' (clients s))) as Hnames'.
  { by apply lobby_names_convert_set. }
  destruct (broadcastLobby_is_Some isOpen (globalStats s) _ Hnames')
    as (l & Hl & ->).
  exists (Build (assoc_set w c' (clients s)) (rooms s) (globalStats s)
            (polluted s)), l.
  simpl. split; [done|]. split; [done|].
  split; [apply assoc_get_set_eq|]. split; [|split; [|split; [|split]]]; try done.
  - destruct Hkey as [k Hk].
    exists (LobbyEntry (id c) (name c) (avatar c)
              (match stats_get (globalStats s) k with
               | Own r => Some r
               | Inherited => None
               | Absent => Some (Stats 0 0)
               end)).
    split; [|done].
    apply (lobbyList_elem_of _ _ _ _ Hl). exists w, c'.
    split; [apply assoc_get_elem_of, assoc_get_set_eq|].
    split; [done|]. unfold lobby_entry_of. simpl. by rewrite Hk.
  - intros w' Hne. by apply assoc_get_set_ne.
Qed.

Lemma return_lobby_effect_witness :
  (type (only_type "return_lobby") = JStr "return_lobby"
   ∧ assoc_get 1 (clients lobby_in_game) = Some (guest alice_id Playing)
   ∧ is_Some (to_key (name (guest alice_id Playing)))
   ∧ lobby_names_convert (clients lobby_in_game))
  ∧ ∃ s' l,
      Lobby.on_message all_open room_id true 1
        (Json (only_type "return_lobby")) lobby_in_game
      = Done s' (push_lobby all_open (LobbyUpdate l) (clients s'))
      ∧ lobbyList (globalStats s') (clients s') = Some l
      ∧ assoc_get 1 (clients s') = Some (guest alice_id Lobby)
      ∧ (∃ e, e ∈ l ∧ entry_id e = alice_id ∧ entry_name e = JStr "Guest")
      ∧ rooms s' = rooms lobby_in_game
      ∧ sessions_of 1 s' = [room_id]
      ∧ globalStats s' = ∅
      ∧ ∀ w', w' ≠ 1 →
          assoc_get w' (clients s') = assoc_get w' (clients lobby_in_game).
Proof.
  assert (is_Some (to_key (name (guest alice_id Playing)))) as Hkey
    by (by eexists).
  assert (lobby_names_convert (clients lobby_in_game)) as Hnames.
  { repeat constructor; simpl; discriminate. }
  split; [done|].
  exact (return_lobby_effect all_open room_id true 1
           (only_type "return_lobby") lobby_in_game
           (guest alice_id Playing) eq_refl eq_refl Hkey Hnames).
Defined.

(** ** Session startup and the challenge flow *)

Lemma strict_eq_str_true v t : strict_eq_str v t = true → v = JStr t.
Proof.
  destruct v; simpl; try done. intros Heq. by apply String.eqb_eq in Heq as ->.
Qed.

Lemma find_client_Some v also cs o co :
  find_client v also cs = Some (o, co) →
  (o, co) ∈ cs ∧ v = JStr (id co) ∧ also co = true.
Proof.
  unfold find_client. intros Hf. apply find_some in Hf as [Hin Hf].
  apply andb_true_iff in Hf as [Hid Halso]. simpl in *.
  split; [by apply list_elem_of_In|]. split; [|done].
  by apply strict_eq_str_true.
Qed.

Lemma find_client_None v also cs w c :
  find_client v also cs = None → (w, c) ∈ cs →
  v = JStr (id c) → also c = false.
Proof.
  unfold find_client. intros Hf Hin ->.
  apply list_elem_of_In in Hin.
  pose proof (find_none _ _ Hf _ Hin) as Hnone. simpl in Hnone.
  rewrite String.eqb_refl in Hnone. done.
Qed.

Lemma elem_of_assoc_get {A} (k : ws) (a : A) (l : list (ws * A)) :
  (k, a) ∈ l → is_Some (assoc_get k l).
Proof.
  intros Hin. destruct (assoc_get k l) eqn:Hg; [by eexists|].
  apply assoc_get_None in Hg. exfalso. apply Hg.
  apply list_elem_of_fmap. by exists (k, a).
Qed.

(** [startGame] on a room of two: both members become [Playing], each is
    sent [game_start] with the other's name and the other colour, and the
    lobby is broadcast. *)
Lemma startGame_two isOpen coin v (s : State) k p1 p2 priv c1 c2 :
  to_key v = Some k →
  assoc_get k (rooms s) = Some (Room [p1; p2] priv) →
  assoc_get p1 (clients s) = Some c1 →
  assoc_get p2 (clients s) = Some c2 →
  lobby_names_convert (clients s) →
  ∃ s' l,
    Server.startGame isOpen coin v s
    = Done s'
        (send isOpen p1 (GameStart v (if coin then White else Black) (name c2))
         ++ send isOpen p2 (GameStart v (if coin then Black else White) (name c1))
         ++ push_lobby isOpen (LobbyUpdate l) (clients s'))
    ∧ lobbyList (globalStats s') (clients s') = Some l
    ∧ rooms s' = rooms s
    ∧ globalStats s' = globalStats s
    ∧ polluted s' = polluted s
    ∧ status_of p1 s' = Some Playing
    ∧ status_of p2 s' = Some Playing
    ∧ (∀ q, q ≠ p1 → q ≠ p2 →
         assoc_get q (clients s') = assoc_get q (clients s))
    ∧ lobby_names_convert (clients s').
Proof.
  intros Hk Hr Hc1 Hc2 Hnames. unfold Server.startGame.
  rewrite Hk. unfold rooms_get, get_property. rewrite Hr. simpl. rewrite Hc1.
  set (cs1 := assoc_set p1 (Server.set_playing c1) (clients s)).
  assert (∃ c2', assoc_get p2 cs1 = Some c2' ∧ name c2' = name c2)
    as (c2' & Hc2' & Hname).
  { subst cs1. rewrite assoc_get_set.
    destruct (decide (p1 = p2)) as [->|Hne]; [|by exists c2].
    exists (Server.set_playing c1). split; [done|]. simpl. congruence. }
  rewrite Hc2'.
  set (cs2 := assoc_set p2 (Server.set_playing c2') cs1).
  assert (lobby_names_convert cs2) as Hnames2.
  { subst cs2 cs1. by do 2 (apply lobby_names_convert_set; [|done]). }
  destruct (broadcastLobby_is_Some isOpen (globalStats s) _ Hnames2)
    as (l & Hl & ->).
  exists (Build cs2 (rooms s) (globalStats s) (polluted s)), l.
  rewrite Hname. simpl. split; [by destruct coin|].
  split; [done|]. do 3 (split; [done|]).
  unfold status_of. simpl. subst cs2 cs1. split; [|split; [|split]].
  - rewrite assoc_get_set. destruct (decide (p2 = p1)); [done|].
    by rewrite assoc_get_set_eq.
  - by rewrite assoc_get_set_eq.
  - intros q Hq1 Hq2. by rewrite !assoc_get_set_ne.
  - done.
Qed.

(** [challenge_accept] once the target resolves to [o]: the opponent's
    status is not looked at. *)
Lemma challenge_accept_resolved isOpen uuid coin (w : ws) m (s : State) c o co :
  assoc_get w (clients s) = Some c →
  lobby_names_convert (clients s) →
  find_client (targetId m) (λ _, true) (clients s) = Some (o, co) →
  ∃ s' l co',
    Server.challenge_accept isOpen uuid coin w m s
    = Done s'
        (send isOpen w
           (GameStart (JStr uuid) (if coin then White else Black) (name co'))
         ++ send isOpen o
              (GameStart (JStr uuid) (if coin then Black else White) (name c))
         ++ push_lobby isOpen (LobbyUpdate l) (clients s'))
    ∧ assoc_get o (clients s) = Some co'
    ∧ rooms s' = assoc_set uuid (Room [w; o] (Some false)) (rooms s)
    ∧ globalStats s' = globalStats s
    ∧ status_of w s' = Some Playing
    ∧ status_of o s' = Some Playing
    ∧ ∀ q, q ≠ w → q ≠ o → assoc_get q (clients s') = assoc_get q (clients s).
Proof.
  intros Hc Hnames Hfind. unfold Server.challenge_accept. rewrite Hfind.
  apply find_client_Some in Hfind as (Hin & _ & _).
  destruct (elem_of_assoc_get _ _ _ Hin) as [co' Hco'].
  set (s1 := Build (clients s)
               (assoc_set uuid (Room [w; o] (Some false)) (rooms s))
               (globalStats s) (polluted s)).
  destruct (startGame_two isOpen coin (JStr uuid) s1 uuid w o (Some false)
              c co' eq_refl (assoc_get_set_eq _ _ _) Hc Hco' Hnames)
    as (s' & l & -> & _ & Hrooms & Hstats & _ & Hw & Ho & Hothers & _).
  exists s', l, co'. done.
Qed.

Lemma no_error_in_send isOpen (w : ws) pl q pl' :
  (q, pl') ∈ send isOpen w pl → pl' = pl.
Proof.
  unfold send. destruct (isOpen w); intros Hin.
  - apply list_elem_of_singleton in Hin. congruence.
  - by apply elem_of_nil in Hin.
Qed.

(** C1, as stated, fails: connection 2 is [Playing] when connection 1
    accepts a challenge naming it, and a second session is created without
    any [error]; and when the identity does not resolve, nothing is
    replied at all. *)
Lemma accept_of_playing_opponent_starts_session :
  Server.reachable in_game
  ∧ status_of 2 in_game = Some Playing
  ∧ (∃ s',
       Server.on_message all_open second_room_id true 1
         (Json (accept_msg bob_id)) in_game
       = Done s'
           [(1, GameStart (JStr second_room_id) White (JStr "Guest"));
            (2, GameStart (JStr second_room_id) Black (JStr "Guest"))]
       ∧ rooms s' = [(room_id, Room [2; 1] (Some false));
                     (second_room_id, Room [1; 2] (Some false))])
  ∧ Server.on_message all_open second_room_id true 1
      (Json (accept_msg "nobody")) in_game = Done in_game [].
Proof.
  split; [apply in_game_reachable|]. split; [done|].
  split; [|done]. eexists. split; reflexivity.
Qed.

(** C1, amended.  A [challenge_accept] never replies [error].  The
    opponent is the first connection whose identity is [targetId],
    whatever its status: when there is one, a room with the caller and the
    opponent is created and both become [Playing]; when there is none,
    nothing is sent and nothing changes. *)
Theorem challenge_accept_effect isOpen uuid coin (w : ws) (m : message)
    (s : State) (c : client) :
  type m = JStr "challenge_accept" →
  assoc_get w (clients s) = Some c →
  lobby_names_convert (clients s) →
  match find_client (targetId m) (λ _, true) (clients s) with
  | None => Server.on_message isOpen uuid coin w (Json m) s = Done s []
  | Some (o, co) =>
      ∃ s' out,
        Server.on_message isOpen uuid coin w (Json m) s = Done s' out
        ∧ rooms s' = assoc_set uuid (Room [w; o] (Some false)) (rooms s)
        ∧ status_of w s' = Some Playing
        ∧ status_of o s' = Some Playing
        ∧ ∀ q pl, (q, pl) ∈ out → ∀ msg, pl ≠ Error msg
  end.
Proof.
  intros Hty Hc Hnames. unfold Server.on_message.
  rewrite !(is_type_eq _ _ _ Hty). simpl.
  destruct (find_client (targetId m) (λ _, true) (clients s))
    as [[o co]|] eqn:Hfind.
  - destruct (challenge_accept_resolved isOpen uuid coin w m s c o co
                Hc Hnames Hfind)
      as (s' & l & co' & -> & _ & Hrooms & _ & Hw & Ho & _).
    eexists _, _. split; [done|]. do 3 (split; [done|]).
    intros q pl Hin msg ->.
    apply elem_of_app in Hin as [Hin|Hin];
      [by apply no_error_in_send in Hin|].
    apply elem_of_app in Hin as [Hin|Hin];
      [by apply no_error_in_send in Hin|].
    by apply push_lobby_payload in Hin.
  - unfold Server.challenge_accept. by rewrite Hfind.
Qed.

Lemma challenge_accept_effect_witness :
  (type (accept_msg bob_id) = JStr "challenge_accept"
   ∧ assoc_get 1 (clients in_game) = Some (guest alice_id Playing)
   ∧ lobby_names_convert (clients in_game))
  ∧ ∃ s' out,
      Server.on_message all_open second_room_id true 1
        (Json (accept_msg bob_id)) in_game = Done s' out
      ∧ rooms s'
        = assoc_set second_room_id (Room [1; 2] (Some false)) (rooms in_game)
      ∧ status_of 1 s' = Some Playing
      ∧ status_of 2 s' = Some Playing
      ∧ ∀ q pl, (q, pl) ∈ out → ∀ msg, pl ≠ Error msg.
Proof.
  assert (lobby_names_convert (clients in_game)) as Hnames.
  { repeat constructor; simpl; discriminate. }
  split; [done|].
  exact (challenge_accept_effect all_open second_room_id true 1
           (accept_msg bob_id) in_game (guest alice_id Playing)
           eq_refl eq_refl Hnames).
Defined.

(** C5, as stated, fails: connection 1 accepts a challenge naming its own
    identity, no [error] is sent, a room listing it twice is created and
    it becomes [Playing]. *)
Lemma self_accept_starts_session :
  id <$> assoc_get 1 (clients two_connected) = Some alice_id
  ∧ Server.on_message all_open room_id true 1
      (Json (accept_msg alice_id)) two_connected
    = Done self_game
        [(1, GameStart (JStr room_id) White (JStr "Guest"));
         (1, GameStart (JStr room_id) Black (JStr "Guest"))]
  ∧ rooms self_game = [(room_id, Room [1; 1] (Some false))]
  ∧ status_of 1 self_game = Some Playing.
Proof. split; [done|]. split; [reflexivity|]. done. Qed.

(** C5, amended.  A [challenge_accept] whose [targetId] is the caller's
    own identity is not rejected: no [error] is sent, a room whose two
    members are both the caller is created, the caller becomes [Playing]
    and is sent two [game_start] messages, one per colour.  A
    [challenge_request] naming the caller's own identity is delivered to
    the caller when it is in the lobby. *)
Theorem self_challenge_effect isOpen uuid coin (w : ws) (m : message)
    (s : State) (c : client) :
  targetId m = JStr (id c) →
  assoc_get w (clients s) = Some c →
  identifies (clients s) w c →
  lobby_names_convert (clients s) →
  (type m = JStr "challenge_accept" →
   ∃ s' l,
     Server.on_message isOpen uuid coin w (Json m) s
     = Done s'
         (send isOpen w
            (GameStart (JStr uuid) (if coin then White else Black) (name c))
          ++ send isOpen w
               (GameStart (JStr uuid) (if coin then Black else White) (name c))
          ++ push_lobby isOpen (LobbyUpdate l) (clients s'))
     ∧ rooms s' = assoc_set uuid (Room [w; w] (Some false)) (rooms s)
     ∧ status_of w s' = Some Playing)
  ∧ (type m = JStr "challenge_request" → state c = Lobby →
     Server.on_message isOpen uuid coin w (Json m) s
     = Done s (send isOpen w (ChallengeReceived (id c) (name c)))).
Proof.
  intros Htarget Hc Hid Hnames.
  pose proof (assoc_get_elem_of _ _ _ Hc) as Hin. split.
  - intros Hty. unfold Server.on_message.
    rewrite !(is_type_eq _ _ _ Hty). simpl.
    destruct (find_client (targetId m) (λ _, true) (clients s))
      as [[o co]|] eqn:Hfind.
    + pose proof (find_client_Some _ _ _ _ _ Hfind) as (Ho & Hv & _).
      assert (o = w) as -> by (eapply Hid; [done | congruence]).
      destruct (challenge_accept_resolved isOpen uuid coin w m s c w co
                  Hc Hnames Hfind)
        as (s' & l & co' & -> & Hco' & Hrooms & _ & Hw & _).
      assert (co' = c) as -> by congruence.
      by exists s', l.
    + by pose proof (find_client_None _ _ _ _ _ Hfind Hin Htarget).
  - intros Hty Hlobby. unfold Server.on_message.
    rewrite !(is_type_eq _ _ _ Hty). simpl.
    unfold challenge_request.
    destruct (find_client (targetId m) is_lobby (clients s))
      as [[o co]|] eqn:Hfind.
    + pose proof (find_client_Some _ _ _ _ _ Hfind) as (Ho & Hv & _).
      assert (o = w) as -> by (eapply Hid; [done | congruence]).
      by rewrite Hc.
    + pose proof (find_client_None _ _ _ _ _ Hfind Hin Htarget) as Hno.
      unfold is_lobby in Hno. by rewrite bool_decide_eq_true_2 in Hno.
Qed.

Lemma self_challenge_effect_witness :
  (targetId (accept_msg alice_id) = JStr (id (guest alice_id Connecting))
   ∧ assoc_get 1 (clients two_connected) = Some (guest alice_id Connecting)
   ∧ identifies (clients two_connected) 1 (guest alice_id Connecting)
   ∧ lobby_names_convert (clients two_connected))
  ∧ ∃ s' l,
      Server.on_message all_open room_id true 1
        (Json (accept_msg alice_id)) two_connected
      = Done s'
          (send all_open 1 (GameStart (JStr room_id) White (JStr "Guest"))
           ++ send all_open 1 (GameStart (JStr room_id) Black (JStr "Guest"))
           ++ push_lobby all_open (LobbyUpdate l) (clients s'))
      ∧ rooms s' = [(room_id, Room [1; 1] (Some false))]
      ∧ status_of 1 s' = Some Playing.
Proof.
  assert (identifies (clients two_connected) 1 (guest alice_id Connecting))
    as Hid.
  { intros w' c' Hin Heq. simpl in Hin.
    apply elem_of_cons in Hin as [[= -> ->]|Hin]; [done|].
    apply list_elem_of_singleton in Hin as [= -> ->]. discriminate Heq. }
  assert (lobby_names_convert (clients two_connected)) as Hnames.
  { repeat constructor; simpl; discriminate. }
  split; [done|].
  exact (proj1 (self_challenge_effect all_open room_id true 1
                  (accept_msg alice_id) two_connected
                  (guest alice_id Connecting) eq_refl eq_refl Hid Hnames)
           eq_refl).
Defined.

(** ** Disconnect *)

Lemma close_rooms_eq isOpen (w : ws) rs :
  Server.close_rooms isOpen w rs
  = (List.filter (λ e, negb (bool_decide (w ∈ players e.2))) rs,
     flat_map (λ e, send_others isOpen w OpponentDisconnected (players e.2))
       (memberships w rs)).
Proof.
  unfold memberships. induction rs as [|[k r] rs IH]; simpl; [done|].
  rewrite IH. by destruct (bool_decide (w ∈ players r)).
Qed.

Lemma memberships_single (w : ws) (rs : list (string * room)) k r :
  NoDup rs.*1 → assoc_get k rs = Some r → (memberships w rs).*1 = [k] →
  memberships w rs = [(k, r)] ∧ w ∈ players r.
Proof.
  intros Hnd Hr Hk.
  destruct (memberships w rs) as [|[k' r'] [|? ?]] eqn:Hm; try done.
  injection Hk as ->.
  assert (In (k, r') (memberships w rs)) as Hin by (rewrite Hm; by left).
  apply filter_In in Hin as [Hin Hw]. simpl in Hw.
  apply bool_decide_eq_true in Hw.
  apply list_elem_of_In, (assoc_get_NoDup _ _ _ Hnd) in Hin.
  assert (r' = r) as -> by congruence. done.
Qed.

Lemma closed_room_gone (w : ws) (rs : list (string * room)) k r :
  NoDup rs.*1 → assoc_get k rs = Some r → w ∈ players r →
  assoc_get k (List.filter (λ e, negb (bool_decide (w ∈ players e.2))) rs)
  = None.
Proof.
  intros Hnd Hr Hw.
  destruct (assoc_get k (List.filter _ rs)) as [r'|] eqn:Hg; [|done].
  apply assoc_get_elem_of, list_elem_of_In, filter_In in Hg as [Hin Hnot].
  apply list_elem_of_In, (assoc_get_NoDup _ _ _ Hnd) in Hin.
  assert (r' = r) as -> by congruence. simpl in Hnot.
  by rewrite bool_decide_eq_true_2 in Hnot.
Qed.

(** C2, as stated, fails: when connection 1 leaves the game, connection 2
    is told so and the room is removed, but 2 stays [Playing], and no
    [lobby_update] is sent to it or lists it.  And a survivor whose socket
    is no longer open is not told. *)
Lemma survivor_stays_playing :
  Server.reachable in_game
  ∧ sessions_of 1 in_game = [room_id]
  ∧ Server.on_close all_open 1 in_game
    = Done survivor [(2, OpponentDisconnected)]
  ∧ status_of 2 survivor = Some Playing
  ∧ lobbyList (globalStats survivor) (clients survivor) = Some []
  ∧ Server.on_close (closing 2) 1 in_game = Done survivor [].
Proof. split; [apply in_game_reachable|]. done. Qed.

(** C2, amended.  When a connection that is a member of one room closes,
    every other member of the room whose socket is open is sent
    [opponent_disconnected] exactly once, the room is removed, a later
    [move] naming it sends nothing and changes nothing, and the closed
    connection leaves the registry.  The status of a surviving member is
    left as it was: the server does not return it to the lobby. *)
Theorem disconnect_teardown isOpen (w : ws) (s : State) k r (p : ws) :
  polluted s = false →
  lobby_names_convert (clients s) →
  NoDup (rooms s).*1 →
  is_uuid k = true →
  assoc_get k (rooms s) = Some r →
  sessions_of w s = [k] →
  NoDup (players r) →
  p ∈ players r →
  p ≠ w →
  ∃ s' out,
    Server.on_close isOpen w s = Done s' out
    ∧ (isOpen p = true →
       ∃ rest, received p out = OpponentDisconnected :: rest
               ∧ ∀ pl, pl ∈ rest → ∃ l, pl = LobbyUpdate l)
    ∧ assoc_get k (rooms s') = None
    ∧ (∀ isOpen' uuid coin w' m,
         type m = JStr "move" → to_key (roomId m) = Some k →
         Server.on_message isOpen' uuid coin w' (Json m) s' = Done s' [])
    ∧ status_of p s' = status_of p s
    ∧ status_of w s' = None.
Proof.
  intros Hpol Hnames Hnd Huuid Hr Hses Hmem Hp Hne.
  destruct (memberships_single w (rooms s) k r Hnd Hr Hses) as [Hm Hw].
  unfold Server.on_close. rewrite Hpol, close_rooms_eq, Hm. simpl.
  rewrite app_nil_r.
  destruct (broadcastLobby_is_Some isOpen (globalStats s) _
              (lobby_names_convert_delete w _ Hnames)) as (l & Hl & Hb).
  rewrite Hb. eexists _, _. split; [done|]. simpl.
  pose proof (closed_room_gone w (rooms s) k r Hnd Hr Hw) as Hgone.
  split; [|split; [|split; [|split]]].
  - intros Hopen. rewrite received_app, received_send_others.
    rewrite decide_False, Hopen, occurrences_NoDup by done. simpl.
    eexists. split; [done|]. intros pl Hpl.
    unfold received in Hpl. apply list_elem_of_fmap in Hpl as ([q pl'] & -> & Hin).
    apply list_elem_of_filter in Hin as [_ Hin].
    apply push_lobby_payload in Hin. by exists l.
  - done.
  - intros isOpen' uuid coin w' m Hty Hk. unfold Server.on_message.
    rewrite !(is_type_eq _ _ _ Hty). simpl.
    unfold relay_move, rooms_get, get_property. simpl.
    by rewrite Hk, Hgone, (uuid_not_inherited _ Huuid).
  - unfold status_of. simpl. by rewrite assoc_get_delete_ne.
  - unfold status_of. simpl. by rewrite assoc_get_delete_eq.
Qed.

Lemma disconnect_teardown_witness :
  (polluted in_game = false
   ∧ lobby_names_convert (clients in_game)
   ∧ NoDup (rooms in_game).*1
   ∧ is_uuid room_id = true
   ∧ assoc_get room_id (rooms in_game) = Some (Room [2; 1] (Some false))
   ∧ sessions_of 1 in_game = [room_id]
   ∧ NoDup [2; 1]
   ∧ 2 ∈ [2; 1]
   ∧ 2 ≠ 1)
  ∧ ∃ s' out,
      Server.on_close all_open 1 in_game = Done s' out
      ∧ (all_open 2 = true →
         ∃ rest, received 2 out = OpponentDisconnected :: rest
                 ∧ ∀ pl, pl ∈ rest → ∃ l, pl = LobbyUpdate l)
      ∧ assoc_get room_id (rooms s') = None
      ∧ (∀ isOpen' uuid coin w' m,
           type m = JStr "move" → to_key (roomId m) = Some room_id →
           Server.on_message isOpen' uuid coin w' (Json m) s' = Done s' [])
      ∧ status_of 2 s' = status_of 2 in_game
      ∧ status_of 1 s' = None.
Proof.
  assert (lobby_names_convert (clients in_game)) as Hnames.
  { repeat constructor; simpl; discriminate. }
  assert (NoDup (rooms in_game).*1) as Hrooms.
  { simpl. apply NoDup_singleton. }
  assert (NoDup [2; 1]) as Hmembers.
  { apply NoDup_cons. split; [|apply NoDup_singleton].
    intros Hin. apply list_elem_of_singleton in Hin. discriminate Hin. }
  assert (2 ∈ [2; 1]) as Hin by (apply elem_of_cons; by left).
  assert (2 ≠ 1) as Hne by discriminate.
  split; [done|].
  exact (disconnect_teardown all_open 1 in_game room_id
           (Room [2; 1] (Some false)) 2
           eq_refl Hnames Hrooms eq_refl eq_refl eq_refl Hmembers Hin Hne).
Defined.

(** ** What holds in every reachable state *)

Lemma joined_set cs (w : ws) c p :
  state c ≠ Connecting → joined cs p → joined (assoc_set w c cs) p.
Proof.
  intros Hc (c0 & Hp & Hst). unfold joined. rewrite assoc_get_set.
  destruct (decide (w = p)); [by exists c | by exists c0].
Qed.

Lemma joined_set_same cs (w : ws) c :
  state c ≠ Connecting → joined (assoc_set w c cs) w.
Proof. intros Hc. exists c. by rewrite assoc_get_set_eq. Qed.

Lemma joined_connect cs (w : ws) c p :
  assoc_get w cs = None → joined cs p → joined (assoc_set w c cs) p.
Proof.
  intros Hw (c0 & Hp & Hst). exists c0. split; [|done].
  rewrite assoc_get_set_ne; [done | congruence].
Qed.

Lemma rooms_ok_mono cs cs' rs :
  (∀ p, joined cs p → joined cs' p) → rooms_ok cs rs → rooms_ok cs' rs.
Proof.
  intros Hmono Hrs. unfold rooms_ok. eapply Forall_impl; [exact Hrs|].
  intros [k r] [Hlen Hmem]. split; [done|].
  eapply Forall_impl; [exact Hmem | exact Hmono].
Qed.

Lemma rooms_ok_set cs rs k r :
  rooms_ok cs rs → room_ok cs r → rooms_ok cs (assoc_set k r rs).
Proof.
  unfold rooms_ok. intros Hrs Hr. apply Forall_forall. intros e He.
  apply elem_of_assoc_set in He as [->|He]; [done|].
  by eapply Forall_forall in Hrs.
Qed.

Lemma rooms_ok_lookup cs rs k r :
  rooms_ok cs rs → assoc_get k rs = Some r → room_ok cs r.
Proof.
  intros Hrs Hr. apply assoc_get_elem_of in Hr.
  by apply (proj1 (Forall_forall _ _) Hrs (k, r)).
Qed.

Lemma assoc_set_keys {A} (k : string) (a : A) (l : list (string * A)) :
  (assoc_set k a l).*1 = if decide (k ∈ l.*1) then l.*1 else l.*1 ++ [k].
Proof.
  induction l as [|[k' a'] l IH]; [done|].
  cbn [assoc_set]. destruct (decide (k = k')) as [->|Hne];
    rewrite !fmap_cons; cbn [fst].
  - rewrite decide_True; [done | apply elem_of_cons; by left].
  - rewrite IH. destruct (decide (k ∈ l.*1)) as [Hin|Hin].
    + rewrite decide_True; [done | apply elem_of_cons; by right].
    + rewrite decide_False; [done|].
      intros Hin'. apply elem_of_cons in Hin' as [?|?]; done.
Qed.

Lemma keys_ok_set rs k r :
  keys_ok rs → is_uuid k = true → keys_ok (assoc_set k r rs).
Proof.
  intros [Hnd Hall] Hk. unfold keys_ok. rewrite assoc_set_keys.
  destruct (decide (k ∈ rs.*1)) as [Hin|Hin]; [done|]. split.
  - apply NoDup_app. split; [done|]. split; [|apply NoDup_singleton].
    intros x Hx Hx'. apply list_elem_of_singleton in Hx' as ->. done.
  - apply Forall_app. split; [done|]. by apply Forall_singleton.
Qed.

Lemma keys_ok_filter f rs : keys_ok rs → keys_ok (List.filter f rs).
Proof.
  intros [Hnd Hall]. induction rs as [|[k r] rs IH]; simpl; [done|].
  simpl in *. apply NoDup_cons in Hnd as [Hk Hnd].
  apply Forall_cons in Hall as [Hu Hall].
  destruct (IH Hnd Hall) as [Hnd' Hall'].
  destruct (f (k, r)); [|done]. split; simpl.
  - apply NoDup_cons. split; [|done]. intros Hin. apply Hk.
    apply list_elem_of_fmap in Hin as ([k' r'] & -> & Hin).
    apply list_elem_of_In, filter_In in Hin as [Hin _].
    apply list_elem_of_fmap. exists (k', r'). split; [done|].
    by apply list_elem_of_In.
  - by apply Forall_cons.
Qed.

Lemma keys_ok_lookup rs k (r : room) :
  keys_ok rs → assoc_get k rs = Some r → is_uuid k = true.
Proof.
  intros [_ Hall] Hr. apply assoc_get_elem_of in Hr.
  eapply (proj1 (Forall_forall _ _) Hall).
  apply list_elem_of_fmap. by exists (k, r).
Qed.

Lemma wf_initial : wf initial.
Proof.
  split; simpl.
  - apply Forall_nil_2.
  - split; [apply NoDup_nil_2 | apply Forall_nil_2].
  - apply Forall_nil_2.
Qed.

Lemma wf_connection (w : ws) clientId (s : State) :
  assoc_get w (clients s) = None → wf s → wf (on_connection w clientId s).
Proof.
  intros Hw [Hrooms Hkeys Hnames]. split; simpl; [|done|].
  - eapply rooms_ok_mono; [|done]. intros p. by apply joined_connect.
  - by apply lobby_names_convert_set.
Qed.

Lemma started_same v (s : State) :
  (∀ k p1 p2 priv,
     to_key v = Some k → assoc_get k (rooms s) ≠ Some (Room [p1; p2] priv)) →
  started v s s.
Proof.
  intros Hno. repeat split; try done.
  all: by destruct (Hno k p1 p2 priv).
Qed.

Lemma startGame_facts isOpen coin v (s s' : State) out :
  Server.startGame isOpen coin v s = Done s' out → started v s s'.
Proof.
  unfold Server.startGame. intros H.
  destruct (to_key v) as [k|] eqn:Hk; [|done].
  unfold rooms_get, get_property in H.
  destruct (assoc_get k (rooms s)) as [[ps priv]|] eqn:Hr.
  - destruct ps as [|p1 [|p2 [|p3 ps]]];
      [injection H as <- <-; apply started_same; congruence..| |
       injection H as <- <-; apply started_same; congruence].
    destruct (assoc_get p1 (clients s)) as [c1|] eqn:Hc1; [|done].
    destruct (assoc_get p2 _) as [c2|] eqn:Hc2; [|done].
    destruct (broadcastLobby _ _ _) as [out'|]; [|done].
    injection H as <- <-. simpl. split; [done|]. split; [|split].
    + intros p Hp. by do 2 (apply joined_set; [done|]).
    + intros Hnames. by do 2 (apply lobby_names_convert_set; [|done]).
    + intros k' q1 q2 priv' Hk' Hr'. simplify_eq. split.
      * apply joined_set; [done|]. by apply joined_set_same.
      * by apply joined_set_same.
  - destruct (inherits k); [done|]. injection H as <- <-.
    apply started_same. congruence.
Qed.

Lemma wf_login isOpen (w : ws) m (s s' : State) out :
  login isOpen w m s = Done s' out → wf s → wf s'.
Proof.
  unfold login. intros H [Hrooms Hkeys Hnames].
  destruct (msg_name m) as [| | | |n|]; try done.
  destruct (assoc_get w (clients s)) as [c|]; [|done].
  destruct (broadcastLobby _ _ _) as [out'|]; [|done].
  injection H as <- <-. split; simpl; [|done|].
  - eapply rooms_ok_mono; [|done]. intros p. by apply joined_set.
  - apply lobby_names_convert_set; [done|]. intros _. by eexists.
Qed.

Lemma wf_create_private isOpen uuid (w : ws) m (s s' : State) out :
  is_uuid uuid = true →
  Server.create_private isOpen uuid w m s = Done s' out → wf s → wf s'.
Proof.
  unfold Server.create_private. intros Hu H [Hrooms Hkeys Hnames].
  destruct (assoc_get w (clients s)) as [c|]; [|done].
  injection H as <- <-. split; simpl.
  - apply rooms_ok_set.
    + eapply rooms_ok_mono; [|done]. intros p. by apply joined_set.
    + split; [simpl; lia|]. apply Forall_singleton. by apply joined_set_same.
  - by apply keys_ok_set.
  - by apply lobby_names_convert_set.
Qed.

Lemma wf_join_private isOpen coin (w : ws) m (s s' : State) out :
  Server.join_private isOpen coin w m s = Done s' out → wf s → wf s'.
Proof.
  unfold Server.join_private. intros H [Hrooms Hkeys Hnames].
  destruct (to_key (roomId m)) as [k|] eqn:Hk; [|done].
  unfold rooms_get, get_property in H.
  destruct (assoc_get k (rooms s)) as [r|] eqn:Hr.
  - destruct (length (players r) <? 2)%nat eqn:Hlen.
    + apply Nat.ltb_lt in Hlen.
      destruct (assoc_get w (clients s)) as [c|]; [|done].
      apply startGame_facts in H as (Hrs & Hmono & Hn & _). simpl in *.
      destruct (rooms_ok_lookup _ _ _ _ Hrooms Hr) as [Hlen' Hmem].
      split.
      * rewrite Hrs. eapply rooms_ok_mono; [exact Hmono|].
        apply rooms_ok_set.
        -- eapply rooms_ok_mono; [|done]. intros p. by apply joined_set.
        -- split; simpl.
           ++ rewrite length_app. simpl. lia.
           ++ apply Forall_app. split.
              ** eapply Forall_impl; [exact Hmem|]. intros p.
                 by apply joined_set.
              ** apply Forall_singleton. by apply joined_set_same.
      * rewrite Hrs. apply keys_ok_set; [done|].
        by eapply keys_ok_lookup.
      * apply Hn. by apply lobby_names_convert_set.
    + by injection H as <- <-.
  - destruct (inherits k); [done|]. by injection H as <- <-.
Qed.

Lemma wf_challenge_accept isOpen uuid coin (w : ws) m (s s' : State) out :
  is_uuid uuid = true →
  Server.challenge_accept isOpen uuid coin w m s = Done s' out →
  wf s → wf s'.
Proof.
  unfold Server.challenge_accept. intros Hu H [Hrooms Hkeys Hnames].
  destruct (find_client _ _ _) as [[o co]|]; [|by injection H as <- <-].
  apply startGame_facts in H as (Hrs & Hmono & Hn & Hnew). simpl in *.
  destruct (Hnew uuid w o (Some false) eq_refl (assoc_get_set_eq _ _ _))
    as [Hw Ho].
  split.
  - rewrite Hrs. apply rooms_ok_set.
    + by eapply rooms_ok_mono.
    + split; [simpl; lia|]. simpl.
      apply Forall_cons_2; [done|]. by apply Forall_singleton.
  - rewrite Hrs. by apply keys_ok_set.
  - by apply Hn.
Qed.

Lemma wf_message isOpen uuid coin (w : ws) f (s s' : State) out :
  is_uuid uuid = true →
  Server.on_message isOpen uuid coin w f s = Done s' out → wf s → wf s'.
Proof.
  intros Hu H Hwf. unfold Server.on_message in H.
  destruct f as [| |m]; [by injection H as <- <- | done |].
  repeat case_match.
  - by eapply wf_login.
  - by eapply wf_create_private.
  - by eapply wf_join_private.
  - unfold challenge_request in H. repeat case_match; simplify_eq; done.
  - by eapply wf_challenge_accept.
  - unfold relay_move in H. repeat case_match; simplify_eq; done.
  - unfold game_over in H. repeat case_match; simplify_eq.
    by destruct Hwf.
  - by injection H as <- <-.
Qed.

Lemma wf_close isOpen (w : ws) (s s' : State) out :
  Server.on_close isOpen w s = Done s' out → wf s → wf s'.
Proof.
  unfold Server.on_close. intros H [Hrooms Hkeys Hnames].
  destruct (polluted s); [done|]. rewrite close_rooms_eq in H.
  destruct (broadcastLobby _ _ _) as [out'|]; [|done].
  injection H as <- <-. split; simpl.
  - unfold rooms_ok in *. apply Forall_forall. intros [k r] Hin.
    apply list_elem_of_In, filter_In in Hin as [Hin Hw]. simpl in Hw.
    apply negb_true_iff, bool_decide_eq_false in Hw.
    apply list_elem_of_In in Hin.
    destruct (proj1 (Forall_forall _ _) Hrooms _ Hin) as [Hlen Hmem].
    split; [done|]. simpl in *. apply Forall_forall. intros p Hp.
    destruct (proj1 (Forall_forall _ _) Hmem _ Hp) as (c & Hc & Hst).
    exists c. split; [|done]. rewrite assoc_get_delete_ne; [done|].
    intros ->. done.
  - by apply keys_ok_filter.
  - by apply lobby_names_convert_delete.
Qed.

Lemma reachable_wf (s : State) : Server.reachable s → wf s.
Proof.
  unfold Server.reachable. revert s.
  apply (rtc_ind_r (R := Server.step) wf initial); [apply wf_initial|].
  intros s1 s2 _ Hstep Hwf. destruct Hstep.
  - by apply wf_connection.
  - by eapply wf_message.
  - by eapply wf_close.
Qed.

Lemma relogged_reachable : Server.reachable relogged.
Proof.
  eapply rtc_r; [apply in_game_reachable|].
  eapply (Server.step_message _ all_open room_id true 1
            (Json (login_msg "Alice"))); [by eexists | reflexivity|].
  reflexivity.
Qed.

(** C3, as stated, fails in reachable states: after its opponent has
    closed, connection 2 is [Playing] and a member of no session; and a
    connection that logs in during a game is in [Lobby] status while
    still a member of its session. *)
Lemma playing_without_session :
  (Server.reachable survivor
   ∧ status_of 2 survivor = Some Playing
   ∧ sessions_of 2 survivor = [])
  ∧ (Server.reachable relogged
     ∧ status_of 1 relogged = Some Lobby
     ∧ sessions_of 1 relogged = [room_id]).
Proof.
  split.
  - split; [apply survivor_reachable | done].
  - split; [apply relogged_reachable | done].
Qed.

(** C3, amended.  In every state reachable from the initial empty state
    by connections, messages and disconnections, every room has one or
    two members, every member is a registered connection whose status is
    not [Connecting], and so a connection with status [Connecting] is a
    member of no room.  (The statuses [Playing] and [Lobby] are not tied
    to membership.) *)
Theorem sessions_invariant (s : State) :
  Server.reachable s →
  (∀ k r, (k, r) ∈ rooms s →
     1 ≤ length (players r) ≤ 2
     ∧ ∀ p, p ∈ players r →
         ∃ st, status_of p s = Some st ∧ st ≠ Connecting)
  ∧ (∀ w, status_of w s = Some Connecting → sessions_of w s = []).
Proof.
  intros Hs. apply reachable_wf in Hs as [Hrooms _ _].
  assert (∀ k r, (k, r) ∈ rooms s →
            1 ≤ length (players r) ≤ 2
            ∧ ∀ p, p ∈ players r →
                ∃ st, status_of p s = Some st ∧ st ≠ Connecting) as Hall.
  { intros k r Hin.
    destruct (proj1 (Forall_forall _ _) Hrooms _ Hin) as [Hlen Hmem].
    split; [done|]. intros p Hp.
    destruct (proj1 (Forall_forall _ _) Hmem _ Hp) as (c & Hc & Hst).
    exists (state c). unfold status_of. by rewrite Hc. }
  split; [done|]. intros w Hw. unfold sessions_of.
  destruct (memberships w (rooms s)) as [|[k r] ms] eqn:Hm; [done|].
  assert (In (k, r) (memberships w (rooms s))) as Hin
    by (rewrite Hm; by left).
  apply filter_In in Hin as [Hin Hmem]. simpl in Hmem.
  apply bool_decide_eq_true in Hmem. apply list_elem_of_In in Hin.
  destruct (Hall k r Hin) as [_ Hst].
  destruct (Hst w Hmem) as (st & Hst' & Hne). congruence.
Qed.

Lemma sessions_invariant_witness :
  Server.reachable relogged
  ∧ (∀ k r, (k, r) ∈ rooms relogged →
       1 ≤ length (players r) ≤ 2
       ∧ ∀ p, p ∈ players r →
           ∃ st, status_of p relogged = Some st ∧ st ≠ Connecting)
  ∧ (∀ w, status_of w relogged = Some Connecting →
       sessions_of w relogged = []).
Proof.
  split; [apply relogged_reachable|].
  exact (sessions_invariant relogged relogged_reachable).
Defined.

(** The conditions the theorems above ask of a state hold in every
    reachable one. *)
Lemma reachable_conditions (s : State) :
  Server.reachable s →
  lobby_names_convert (clients s)
  ∧ NoDup (rooms s).*1
  ∧ ∀ k r, assoc_get k (rooms s) = Some r → is_uuid k = true.
Proof.
  intros Hs. apply reachable_wf in Hs as [_ Hkeys Hnames].
  split; [done|]. split; [apply Hkeys|].
  intros k r. by apply keys_ok_lookup.
Qed.

(** * Further properties of the handlers *)

(** ** The lobby broadcast *)

Lemma lobbyList_entry_exists g cs l w c :
  lobbyList g cs = Some l → (w, c) ∈ cs → state c = Lobby →
  is_Some (lobby_entry_of g c).
Proof.
  revert l. induction cs as [|[w0 c0] cs IH]; simpl; intros l Hl Hin Hst.
  - by apply elem_of_nil in Hin.
  - unfold is_lobby in Hl.
    destruct (decide (state c0 = Lobby)) as [Hc0|Hc0].
    + rewrite bool_decide_eq_true_2 in Hl by done.
      destruct (lobby_entry_of g c0) as [e0|] eqn:He0; simpl in Hl; [|done].
      destruct (lobbyList g cs) as [l'|]; simpl in Hl; [|done].
      apply elem_of_cons in Hin as [[= -> ->]|Hin]; [by eexists|].
      by eapply IH.
    + rewrite bool_decide_eq_false_2 in Hl by done.
      apply elem_of_cons in Hin as [[= -> ->]|Hin]; [done|].
      by eapply IH.
Qed.

(** X1.  A lobby broadcast sends one and the same snapshot, and sends it
    exactly to the registered connections that are in the lobby and have
    an open socket.  The snapshot has an entry for every connection in the
    lobby, carrying its identity, name and avatar, and no entry for any
    other connection. *)
Theorem lobby_broadcast_reaches_the_lobby isOpen (cs : list (ws * client))
    (g : gmap string stats_record) (out : sent) :
  broadcastLobby isOpen cs g = Some out →
  ∃ l,
    (∀ q pl, (q, pl) ∈ out ↔
       pl = LobbyUpdate l
       ∧ ∃ c, (q, c) ∈ cs ∧ state c = Lobby ∧ isOpen q = true)
    ∧ (∀ w c, (w, c) ∈ cs → state c = Lobby →
         ∃ e, e ∈ l ∧ entry_id e = id c ∧ entry_name e = name c
              ∧ entry_avatar e = avatar c)
    ∧ (∀ e, e ∈ l →
         ∃ w c, (w, c) ∈ cs ∧ state c = Lobby ∧ entry_id e = id c
                ∧ entry_name e = name c ∧ entry_avatar e = avatar c).
Proof.
  unfold broadcastLobby. destruct (lobbyList g cs) as [l|] eqn:Hl; [|done].
  simpl. intros [= <-]. exists l. split; [|split].
  - intros q pl. split.
    + intros Hin. pose proof (push_lobby_payload _ _ _ _ _ Hin) as ->.
      split; [done|]. by apply elem_of_push_lobby in Hin.
    + intros [-> Hq]. by apply elem_of_push_lobby.
  - intros w c Hin Hst.
    destruct (lobbyList_entry_exists _ _ _ _ _ Hl Hin Hst) as [e He].
    exists e. split; [|by apply lobby_entry_of_fields in He].
    apply (lobbyList_elem_of _ _ _ _ Hl). by exists w, c.
  - intros e He. apply (lobbyList_elem_of _ _ _ _ Hl) in He
      as (w & c & Hin & Hst & He).
    exists w, c. split; [done|]. split; [done|].
    by apply lobby_entry_of_fields in He.
Qed.

Lemma lobby_broadcast_reaches_the_lobby_witness :
  broadcastLobby all_open (clients relogged) (globalStats relogged)
  = Some [(1, LobbyUpdate [LobbyEntry alice_id (JStr "Alice") (JStr "w_k")
                             (Some (Stats 0 0))])]
  ∧ ∃ l,
      (∀ q pl,
         (q, pl) ∈ [(1, LobbyUpdate [LobbyEntry alice_id (JStr "Alice")
                                       (JStr "w_k") (Some (Stats 0 0))])] ↔
         pl = LobbyUpdate l
         ∧ ∃ c, (q, c) ∈ clients relogged ∧ state c = Lobby
                ∧ all_open q = true)
      ∧ (∀ w c, (w, c) ∈ clients relogged → state c = Lobby →
           ∃ e, e ∈ l ∧ entry_id e = id c ∧ entry_name e = name c
                ∧ entry_avatar e = avatar c)
      ∧ (∀ e, e ∈ l →
           ∃ w c, (w, c) ∈ clients relogged ∧ state c = Lobby
                  ∧ entry_id e = id c ∧ entry_name e = name c
                  ∧ entry_avatar e = avatar c).
Proof.
  split; [reflexivity|].
  exact (lobby_broadcast_reaches_the_lobby all_open (clients relogged)
           (globalStats relogged) _ eq_refl).
Defined.

(** ** Sockets that are not open *)

Lemma sent_open_nil isOpen : sent_open isOpen [].
Proof. intros q pl Hin. by apply elem_of_nil in Hin. Qed.

Lemma sent_open_app isOpen out1 out2 :
  sent_open isOpen out1 → sent_open isOpen out2 →
  sent_open isOpen (out1 ++ out2).
Proof.
  intros H1 H2 q pl Hin. apply elem_of_app in Hin as [Hin|Hin]; eauto.
Qed.

Lemma sent_open_send isOpen (w : ws) pl : sent_open isOpen (send isOpen w pl).
Proof.
  intros q pl' Hin. unfold send in Hin. destruct (isOpen w) eqn:Hw.
  - apply list_elem_of_singleton in Hin. congruence.
  - by apply elem_of_nil in Hin.
Qed.

Lemma sent_open_send_others isOpen (w : ws) pl l :
  sent_open isOpen (send_others isOpen w pl l).
Proof. intros q pl' Hin. by apply elem_of_send_others in Hin as (_&_&_&?). Qed.

Lemma sent_open_broadcastLobby isOpen cs g out :
  broadcastLobby isOpen cs g = Some out → sent_open isOpen out.
Proof.
  unfold broadcastLobby. destruct (lobbyList g cs) as [l|]; [|done].
  simpl. intros [= <-] q pl Hin.
  pose proof (push_lobby_payload _ _ _ _ _ Hin) as ->.
  by apply elem_of_push_lobby in Hin as (c & _ & _ & ?).
Qed.

Lemma sent_open_startGame isOpen coin v (s s' : State) out :
  Server.startGame isOpen coin v s = Done s' out → sent_open isOpen out.
Proof.
  unfold Server.startGame. intros H.
  repeat case_match; simplify_eq; try apply sent_open_nil.
  all: repeat apply sent_open_app; try apply sent_open_send.
  all: by eapply sent_open_broadcastLobby.
Qed.

Lemma sent_open_close_rooms isOpen (w : ws) rs :
  sent_open isOpen (Server.close_rooms isOpen w rs).2.
Proof.
  rewrite close_rooms_eq. simpl. induction (memberships w rs) as [|e l IH].
  - apply sent_open_nil.
  - simpl. apply sent_open_app; [apply sent_open_send_others | done].
Qed.

Lemma sent_open_broadcastToRoom isOpen (s : Relay.State) v pl ex out :
  Relay.broadcastToRoom isOpen s v pl ex = Some out → sent_open isOpen out.
Proof.
  unfold Relay.broadcastToRoom. destruct (to_key v) as [k|]; [|done]. simpl.
  destruct (Relay.rooms_get s k) as [ps| |]; [|done|]; intros [= <-];
    [|apply sent_open_nil].
  intros q pl' Hin. apply list_elem_of_In, in_flat_map in Hin as (x & _ & Hin).
  destruct (bool_decide _); simpl in Hin; [|done].
  destruct (isOpen (Relay.player_ws x)) eqn:Hx; [|done].
  destruct Hin as [[= <- <-]|[]]. done.
Qed.

Ltac sent_open :=
  repeat first
    [ apply sent_open_nil
    | apply sent_open_send
    | apply sent_open_send_others
    | apply sent_open_app
    | eapply sent_open_broadcastLobby; eassumption
    | eapply sent_open_startGame; eassumption
    | eapply sent_open_broadcastToRoom; eassumption ].

Lemma sent_open_server_message isOpen uuid coin (w : ws) f (s s' : State) out :
  Server.on_message isOpen uuid coin w f s = Done s' out →
  sent_open isOpen out.
Proof.
  unfold Server.on_message, login, Server.create_private, Server.join_private,
    challenge_request, Server.challenge_accept, relay_move, game_over.
  intros H. repeat case_match; simplify_eq; sent_open.
Qed.

Lemma sent_open_lobby_message isOpen uuid coin (w : ws) f (s s' : State) out :
  Lobby.on_message isOpen uuid coin w f s = Done s' out →
  sent_open isOpen out.
Proof.
  unfold Lobby.on_message, login, challenge_request, Lobby.challenge_accept,
    relay_move, game_over, Lobby.return_lobby.
  intros H. repeat case_match; simplify_eq; sent_open.
Qed.

Lemma sent_open_relay_message isOpen coin (w : ws) f (s s' : Relay.State) out :
  Relay.on_message isOpen coin w f s = Done s' out → sent_open isOpen out.
Proof.
  unfold Relay.on_message, Relay.join, Relay.relay_move.
  intros H. repeat case_match; simplify_eq; sent_open.
Qed.

(** X2.  No handler of the three servers sends on a socket whose
    [readyState] is not [OPEN]: whatever a message handler or a close
    handler sends goes to an open socket. *)
Theorem nothing_sent_on_closed_sockets isOpen uuid coin (w : ws) (f : frame)
    (s s' : State) (out : sent) :
  Server.on_message isOpen uuid coin w f s = Done s' out
  ∨ Server.on_close isOpen w s = Done s' out
  ∨ Lobby.on_message isOpen uuid coin w f s = Done s' out
  ∨ Lobby.on_close isOpen w s = Done s' out
  ∨ (∃ r r', Relay.on_message isOpen coin w f r = Done r' out) →
  ∀ q pl, (q, pl) ∈ out → isOpen q = true.
Proof.
  intros [H|[H|[H|[H|(r & r' & H)]]]].
  - by eapply sent_open_server_message.
  - unfold Server.on_close in H. destruct (polluted s); [done|].
    pose proof (sent_open_close_rooms isOpen w (rooms s)) as Hrooms.
    destruct (Server.close_rooms isOpen w (rooms s)) as [rs out1].
    destruct (broadcastLobby _ _ _) as [out2|] eqn:Hb; [|done].
    injection H as <- <-. apply sent_open_app; [done|].
    by eapply sent_open_broadcastLobby.
  - by eapply sent_open_lobby_message.
  - unfold Lobby.on_close in H.
    destruct (broadcastLobby _ _ _) as [out2|] eqn:Hb; [|done].
    injection H as <- <-. by eapply sent_open_broadcastLobby.
  - by eapply sent_open_relay_message.
Qed.

Lemma nothing_sent_on_closed_sockets_witness :
  Server.on_message (closing 2) room_id true 3
    (Json (move_msg room_id "e2e4")) watched
  = Done watched [(1, Move (JStr "e2e4"))]
  ∧ ∀ q pl, (q, pl) ∈ [(1, Move (JStr "e2e4"))] → closing 2 q = true.
Proof.
  split; [reflexivity|].
  exact (nothing_sent_on_closed_sockets (closing 2) room_id true 3
           (Json (move_msg room_id "e2e4")) watched watched _
           (or_introl eq_refl)).
Defined.

(** ** Challenges *)

(** X3.  A [challenge_request] never changes the state.  It sends at most
    one message: [challenge_received], carrying the sender's identity and
    name, to a connection in the lobby whose identity is [targetId].  When
    no connection with that identity is in the lobby, the request is
    dropped without any reply. *)
Theorem challenge_request_delivery isOpen uuid coin (w : ws) (m : message)
    (s : State) (c : client) :
  type m = JStr "challenge_request" →
  assoc_get w (clients s) = Some c →
  ∃ out,
    Server.on_message isOpen uuid coin w (Json m) s = Done s out
    ∧ (out = []
       ∨ ∃ t ct,
           out = [(t, ChallengeReceived (id c) (name c))]
           ∧ (t, ct) ∈ clients s ∧ state ct = Lobby
           ∧ targetId m = JStr (id ct))
    ∧ ((∀ t ct, (t, ct) ∈ clients s → targetId m = JStr (id ct) →
          state ct ≠ Lobby) →
       out = []).
Proof.
  intros Hty Hc. unfold Server.on_message.
  rewrite !(is_type_eq _ _ _ Hty). simpl. unfold challenge_request.
  destruct (find_client (targetId m) is_lobby (clients s)) as [[t ct]|]
    eqn:Hfind.
  - rewrite Hc. apply find_client_Some in Hfind as (Hin & Hid & Hlobby).
    apply bool_decide_eq_true in Hlobby.
    eexists. split; [done|]. split.
    + unfold send. destruct (isOpen t); [|by left].
      right. by exists t, ct.
    + intros Hnone. by destruct (Hnone t ct Hin Hid).
  - exists []. split; [done|]. split; [by left | done].
Qed.

Lemma challenge_request_delivery_witness :
  (type (request_msg alice_id) = JStr "challenge_request"
   ∧ assoc_get 2 (clients relogged) = Some (guest bob_id Playing))
  ∧ ∃ out,
      Server.on_message all_open room_id true 2
        (Json (request_msg alice_id)) relogged = Done relogged out
      ∧ (out = []
         ∨ ∃ t ct,
             out = [(t, ChallengeReceived bob_id (JStr "Guest"))]
             ∧ (t, ct) ∈ clients relogged ∧ state ct = Lobby
             ∧ targetId (request_msg alice_id) = JStr (id ct))
      ∧ ((∀ t ct, (t, ct) ∈ clients relogged →
            targetId (request_msg alice_id) = JStr (id ct) →
            state ct ≠ Lobby) →
         out = []).
Proof.
  split; [done|].
  exact (challenge_request_delivery all_open room_id true 2
           (request_msg alice_id) relogged (guest bob_id Playing)
           eq_refl eq_refl).
Defined.

(** ** Session startup *)

(** X4.  [startGame] on a room of two registered members makes both
    [Playing], leaves the rooms and the ledger alone, and sends each member
    one [game_start] naming the room, the other member's name and a
    colour; the two colours differ, the first member's being white exactly
    when [Math.random() < 0.5].  Whatever is sent after that is the lobby
    snapshot. *)
Theorem startGame_assigns_both_colours isOpen coin v (s : State) k
    (p1 p2 : ws) priv (c1 c2 : client) :
  to_key v = Some k →
  assoc_get k (rooms s) = Some (Room [p1; p2] priv) →
  assoc_get p1 (clients s) = Some c1 →
  assoc_get p2 (clients s) = Some c2 →
  lobby_names_convert (clients s) →
  ∃ s' col rest,
    Server.startGame isOpen coin v s
    = Done s' (send isOpen p1 (GameStart v col (name c2))
               ++ send isOpen p2 (GameStart v (Server.other_color col) (name c1))
               ++ rest)
    ∧ col = (if coin then White else Black)
    ∧ Server.other_color col ≠ col
    ∧ (∀ q pl, (q, pl) ∈ rest → ∃ l, pl = LobbyUpdate l)
    ∧ status_of p1 s' = Some Playing
    ∧ status_of p2 s' = Some Playing
    ∧ rooms s' = rooms s
    ∧ globalStats s' = globalStats s.
Proof.
  intros Hk Hr Hc1 Hc2 Hnames.
  destruct (startGame_two isOpen coin v s k p1 p2 priv c1 c2
              Hk Hr Hc1 Hc2 Hnames)
    as (s' & l & -> & _ & Hrooms & Hstats & _ & H1 & H2 & _).
  exists s', (if coin then White else Black),
    (push_lobby isOpen (LobbyUpdate l) (clients s')).
  split; [by destruct coin|]. split; [done|]. split; [by destruct coin|].
  split; [|done]. intros q pl Hin. exists l. by eapply push_lobby_payload.
Qed.

Lemma startGame_assigns_both_colours_witness :
  (to_key (JStr room_id) = Some room_id
   ∧ assoc_get room_id (rooms relogged) = Some (Room [2; 1] (Some false))
   ∧ assoc_get 2 (clients relogged) = Some (guest bob_id Playing)
   ∧ assoc_get 1 (clients relogged)
     = Some (Client alice_id (JStr "Alice") (JStr "w_k") Lobby)
   ∧ lobby_names_convert (clients relogged))
  ∧ ∃ s' col rest,
      Server.startGame all_open false (JStr room_id) relogged
      = Done s' (send all_open 2 (GameStart (JStr room_id) col (JStr "Alice"))
                 ++ send all_open 1
                      (GameStart (JStr room_id) (Server.other_color col)
                         (JStr "Guest"))
                 ++ rest)
      ∧ col = Black
      ∧ Server.other_color col ≠ col
      ∧ (∀ q pl, (q, pl) ∈ rest → ∃ l, pl = LobbyUpdate l)
      ∧ status_of 2 s' = Some Playing
      ∧ status_of 1 s' = Some Playing
      ∧ rooms s' = rooms relogged
      ∧ globalStats s' = globalStats relogged.
Proof.
  assert (lobby_names_convert (clients relogged)) as Hnames.
  { repeat constructor; simpl; intros _; by eexists. }
  split; [done|].
  exact (startGame_assigns_both_colours all_open false (JStr room_id) relogged
           room_id 2 1 (Some false) (guest bob_id Playing)
           (Client alice_id (JStr "Alice") (JStr "w_k") Lobby)
           eq_refl eq_refl eq_refl eq_refl Hnames).
Defined.

(** ** Private links *)

(** X5.  A private link, end to end.  [create_private] registers a room
    with the creator as its only member, makes the creator
    [WaitingPrivate] and tells the creator alone, with [private_created];
    nothing is broadcast.  When another connection then sends
    [join_private] with that room id, the room holds creator and joiner in
    that order, both are [Playing], and the creator is sent [game_start]
    with the joiner's name and one colour, the joiner [game_start] with
    the creator's name and the other colour.  Names default to ["Host"]
    and ["Guest"]. *)
Theorem private_link_starts_the_game isOpen uuid uuid' coin coin'
    (w1 w2 : ws) (m1 m2 : message) (s : State) (c1 c2 : client) :
  type m1 = JStr "create_private" →
  type m2 = JStr "join_private" →
  roomId m2 = JStr uuid →
  assoc_get w1 (clients s) = Some c1 →
  assoc_get w2 (clients s) = Some c2 →
  w1 ≠ w2 →
  lobby_names_convert (clients s) →
  ∃ s1 s2 rest,
    Server.on_message isOpen uuid coin w1 (Json m1) s
    = Done s1 (send isOpen w1 (PrivateCreated uuid))
    ∧ assoc_get uuid (rooms s1) = Some (Room [w1] (Some true))
    ∧ status_of w1 s1 = Some WaitingPrivate
    ∧ Server.on_message isOpen uuid' coin' w2 (Json m2) s1
      = Done s2
          (send isOpen w1
             (GameStart (JStr uuid) (if coin' then White else Black)
                (or_else (msg_name m2) (JStr "Guest")))
           ++ send isOpen w2
                (GameStart (JStr uuid) (if coin' then Black else White)
                   (or_else (msg_name m1) (JStr "Host")))
           ++ rest)
    ∧ (∀ q pl, (q, pl) ∈ rest → ∃ l, pl = LobbyUpdate l)
    ∧ assoc_get uuid (rooms s2) = Some (Room [w1; w2] (Some true))
    ∧ status_of w1 s2 = Some Playing
    ∧ status_of w2 s2 = Some Playing.
Proof.
  intros Hty1 Hty2 Hroom Hc1 Hc2 Hne Hnames.
  set (c1' := Client (id c1) (or_else (msg_name m1) (JStr "Host"))
                (msg_avatar m1) WaitingPrivate).
  set (s1 := Build (assoc_set w1 c1' (clients s))
               (assoc_set uuid (Room [w1] (Some true)) (rooms s))
               (globalStats s) (polluted s)).
  assert (Server.on_message isOpen uuid coin w1 (Json m1) s
          = Done s1 (send isOpen w1 (PrivateCreated uuid))) as Hcreate.
  { unfold Server.on_message. rewrite !(is_type_eq _ _ _ Hty1). simpl.
    unfold Server.create_private. by rewrite Hc1. }
  set (c2' := Client (id c2) (or_else (msg_name m2) (JStr "Guest"))
                (msg_avatar m2) Playing).
  set (s1' := Build (assoc_set w2 c2' (clients s1))
                (assoc_set uuid (Room [w1; w2] (Some true)) (rooms s1))
                (globalStats s1) (polluted s1)).
  assert (lobby_names_convert (clients s1')) as Hnames'.
  { unfold s1', s1. simpl. by do 2 (apply lobby_names_convert_set; [|done]). }
  destruct (startGame_two isOpen coin' (JStr uuid) s1' uuid w1 w2 (Some true)
              c1' c2' eq_refl) as (s2 & l & Hstart & _ & Hrooms & _ & _
                                   & Hw1 & Hw2 & _); try done.
  { unfold s1'. simpl. apply assoc_get_set_eq. }
  { unfold s1', s1. simpl. rewrite assoc_get_set_ne by done.
    apply assoc_get_set_eq. }
  { unfold s1'. simpl. apply assoc_get_set_eq. }
  exists s1, s2, (push_lobby isOpen (LobbyUpdate l) (clients s2)).
  split; [done|]. split; [apply assoc_get_set_eq|].
  split; [unfold status_of, s1; simpl; by rewrite assoc_get_set_eq|].
  split; [|split; [|split; [|done]]].
  - unfold Server.on_message. rewrite !(is_type_eq _ _ _ Hty2). simpl.
    unfold Server.join_private. rewrite Hroom. simpl.
    unfold rooms_get, get_property. unfold s1 at 1. simpl.
    rewrite assoc_get_set_eq. simpl.
    rewrite assoc_get_set_ne, Hc2 by done. exact Hstart.
  - intros q pl Hin. exists l. by eapply push_lobby_payload.
  - rewrite Hrooms. unfold s1'. simpl. apply assoc_get_set_eq.
Qed.

Lemma private_link_starts_the_game_witness :
  (type (create_private_msg "Ann" "w_q") = JStr "create_private"
   ∧ type (join_private_msg room_id "" "b_q") = JStr "join_private"
   ∧ roomId (join_private_msg room_id "" "b_q") = JStr room_id
   ∧ assoc_get 1 (clients two_connected) = Some (guest alice_id Connecting)
   ∧ assoc_get 2 (clients two_connected) = Some (guest bob_id Connecting)
   ∧ 1 ≠ 2
   ∧ lobby_names_convert (clients two_connected))
  ∧ ∃ s1 s2 rest,
      Server.on_message all_open room_id true 1
        (Json (create_private_msg "Ann" "w_q")) two_connected
      = Done s1 (send all_open 1 (PrivateCreated room_id))
      ∧ assoc_get room_id (rooms s1) = Some (Room [1] (Some true))
      ∧ status_of 1 s1 = Some WaitingPrivate
      ∧ Server.on_message all_open second_room_id false 2
          (Json (join_private_msg room_id "" "b_q")) s1
        = Done s2
            (send all_open 1 (GameStart (JStr room_id) Black (JStr "Guest"))
             ++ send all_open 2 (GameStart (JStr room_id) White (JStr "Ann"))
             ++ rest)
      ∧ (∀ q pl, (q, pl) ∈ rest → ∃ l, pl = LobbyUpdate l)
      ∧ assoc_get room_id (rooms s2) = Some (Room [1; 2] (Some true))
      ∧ status_of 1 s2 = Some Playing
      ∧ status_of 2 s2 = Some Playing.
Proof.
  assert (1 ≠ 2) as Hne by discriminate.
  assert (lobby_names_convert (clients two_connected)) as Hnames.
  { repeat constructor; simpl; discriminate. }
  split; [done|].
  exact (private_link_starts_the_game all_open room_id second_room_id
           true false 1 2 (create_private_msg "Ann" "w_q")
           (join_private_msg room_id "" "b_q") two_connected
           (guest alice_id Connecting) (guest bob_id Connecting)
           eq_refl eq_refl eq_refl eq_refl eq_refl Hne Hnames).
Defined.

(** X6.  A [join_private] that names no room of the table, or a room that
    already has two members, is answered with the error ["Room not found
    or full"], sent to the sender alone, and changes nothing. *)
Theorem join_private_refused isOpen uuid coin (w : ws) (m : message)
    (s : State) k :
  type m = JStr "join_private" →
  to_key (roomId m) = Some k →
  inherits k = false →
  (∀ r, assoc_get k (rooms s) = Some r → 2 ≤ length (players r)) →
  Server.on_message isOpen uuid coin w (Json m) s
  = Done s (send isOpen w (Error "Room not found or full")).
Proof.
  intros Hty Hk Hinh Hfull. unfold Server.on_message.
  rewrite !(is_type_eq _ _ _ Hty). simpl.
  unfold Server.join_private, rooms_get, get_property. rewrite Hk.
  destruct (assoc_get k (rooms s)) as [r|]; [|by rewrite Hinh].
  specialize (Hfull r eq_refl).
  by apply Nat.ltb_ge in Hfull as ->.
Qed.

Lemma join_private_refused_witness :
  (type (join_private_msg room_id "Cy" "b_q") = JStr "join_private"
   ∧ to_key (roomId (join_private_msg room_id "Cy" "b_q")) = Some room_id
   ∧ inherits room_id = false
   ∧ ∀ r, assoc_get room_id (rooms watched) = Some r → 2 ≤ length (players r))
  ∧ Server.on_message all_open second_room_id true 3
      (Json (join_private_msg room_id "Cy" "b_q")) watched
    = Done watched [(3, Error "Room not found or full")].
Proof.
  assert (∀ r, assoc_get room_id (rooms watched) = Some r →
            2 ≤ length (players r)) as Hfull.
  { intros r [= <-]. simpl. lia. }
  split; [done|].
  exact (join_private_refused all_open second_room_id true 3
           (join_private_msg room_id "Cy" "b_q") watched room_id
           eq_refl eq_refl eq_refl Hfull).
Defined.

(** ** Disconnect, in general *)

Lemma memberships_after_close (w : ws) (rs : list (string * room)) :
  memberships w
    (List.filter (λ e, negb (bool_decide (w ∈ players e.2))) rs) = [].
Proof.
  unfold memberships. induction rs as [|[k r] rs IH]; simpl; [done|].
  destruct (bool_decide (w ∈ players r)) eqn:Hw; simpl; [done|].
  by rewrite Hw.
Qed.

(** X7.  The close handler removes exactly the rooms that list the closed
    connection, however many there are, and keeps every other room as it
    is; it removes the connection from the registry and no other; it does
    not touch the ledger; and it sends nothing to the closed connection.
    Afterwards the connection is a member of no room. *)
Theorem close_removes_the_rooms_of_the_connection isOpen (w : ws) (s : State) :
  polluted s = false →
  lobby_names_convert (clients s) →
  ∃ s' out,
    Server.on_close isOpen w s = Done s' out
    ∧ (∀ k r, (k, r) ∈ rooms s' ↔ (k, r) ∈ rooms s ∧ w ∉ players r)
    ∧ sessions_of w s' = []
    ∧ assoc_get w (clients s') = None
    ∧ (∀ w', w' ≠ w → assoc_get w' (clients s') = assoc_get w' (clients s))
    ∧ globalStats s' = globalStats s
    ∧ ∀ q pl, (q, pl) ∈ out → q ≠ w.
Proof.
  intros Hpol Hnames. unfold Server.on_close.
  rewrite Hpol, close_rooms_eq.
  destruct (broadcastLobby_is_Some isOpen (globalStats s) _
              (lobby_names_convert_delete w _ Hnames)) as (l & Hl & ->).
  eexists _, _. split; [done|]. simpl.
  split; [|split; [|split; [|split; [|split; [done|]]]]].
  - intros k r. rewrite !list_elem_of_In, filter_In. simpl.
    rewrite negb_true_iff, bool_decide_eq_false. by rewrite list_elem_of_In.
  - unfold sessions_of. simpl. by rewrite memberships_after_close.
  - apply assoc_get_delete_eq.
  - intros w' Hne. by apply assoc_get_delete_ne.
  - intros q pl Hin. apply elem_of_app in Hin as [Hin|Hin].
    + apply list_elem_of_In, in_flat_map in Hin as (e & _ & Hin).
      by apply list_elem_of_In, elem_of_send_others in Hin as (_ & ? & _).
    + pose proof (push_lobby_payload _ _ _ _ _ Hin) as ->.
      apply elem_of_push_lobby in Hin as (c & Hin & _).
      by apply elem_of_assoc_delete in Hin as [_ ?].
Qed.

Lemma close_removes_the_rooms_of_the_connection_witness :
  (polluted relogged = false ∧ lobby_names_convert (clients relogged))
  ∧ ∃ s' out,
      Server.on_close all_open 2 relogged = Done s' out
      ∧ (∀ k r, (k, r) ∈ rooms s' ↔ (k, r) ∈ rooms relogged ∧ 2 ∉ players r)
      ∧ sessions_of 2 s' = []
      ∧ assoc_get 2 (clients s') = None
      ∧ (∀ w', w' ≠ 2 →
           assoc_get w' (clients s') = assoc_get w' (clients relogged))
      ∧ globalStats s' = globalStats relogged
      ∧ ∀ q pl, (q, pl) ∈ out → q ≠ 2.
Proof.
  assert (lobby_names_convert (clients relogged)) as Hnames.
  { repeat constructor; simpl; intros _; by eexists. }
  split; [done|].
  exact (close_removes_the_rooms_of_the_connection all_open 2 relogged
           eq_refl Hnames).
Defined.

(** ** The registry under messages *)

Lemma identities_set (w : ws) c c' cs :
  assoc_get w cs = Some c → id c' = id c →
  identities (assoc_set w c' cs) = identities cs.
Proof.
  unfold identities. intros Hc Hid.
  induction cs as [|[w0 c0] cs IH]; simpl in *; [done|].
  destruct (decide (w = w0)) as [->|Hne]; simpl.
  - injection Hc as ->. by rewrite Hid.
  - f_equal. by apply IH.
Qed.

Lemma identities_startGame isOpen coin v (s s' : State) out :
  Server.startGame isOpen coin v s = Done s' out →
  identities (clients s') = identities (clients s).
Proof.
  unfold Server.startGame. intros H. repeat case_match; simplify_eq; try done.
  all: simpl; erewrite identities_set; [by eapply identities_set | done..].
Qed.

(** X8.  No message registers or unregisters a connection, reorders the
    registry, or changes an identity: after any message that is handled to
    the end, the registry lists the same connections with the same
    identities in the same order.  Only the connection and close handlers
    add and remove entries. *)
Theorem messages_keep_the_registry isOpen uuid coin (w : ws) (f : frame)
    (s s' : State) (out : sent) :
  Server.on_message isOpen uuid coin w f s = Done s' out →
  identities (clients s') = identities (clients s).
Proof.
  unfold Server.on_message, login, Server.create_private, Server.join_private,
    challenge_request, Server.challenge_accept, relay_move, game_over.
  intros H. repeat case_match; simplify_eq; try done; simpl.
  all: try (by eapply identities_set).
  - apply identities_startGame in H. simpl in H. rewrite H.
    by eapply identities_set.
  - by apply identities_startGame in H.
Qed.

Lemma messages_keep_the_registry_witness :
  Server.on_message all_open room_id true 1 (Json (login_msg "Alice")) in_game
  = Done relogged
      [(1, LoginSuccess alice_id);
       (1, LobbyUpdate [LobbyEntry alice_id (JStr "Alice") (JStr "w_k")
                          (Some (Stats 0 0))])]
  ∧ identities (clients relogged) = identities (clients in_game).
Proof.
  split; [reflexivity|].
  exact (messages_keep_the_registry all_open room_id true 1
           (Json (login_msg "Alice")) in_game relogged _ eq_refl).
Defined.

(** ** The ledger over a run *)

Lemma incr_ge n : (n ≤ incr n)%N.
Proof. unfold incr. destruct (n <? max_safe)%N; lia. Qed.

Lemma ledger_le_refl g : ledger_le g g.
Proof. intros n r Hn. exists r. split; [done|]. lia. Qed.

Lemma ledger_le_trans g1 g2 g3 :
  ledger_le g1 g2 → ledger_le g2 g3 → ledger_le g1 g3.
Proof.
  intros H12 H23 n r Hn.
  destruct (H12 n r Hn) as (r2 & Hn2 & Hw2 & Hl2).
  destruct (H23 n r2 Hn2) as (r3 & Hn3 & Hw3 & Hl3).
  exists r3. split; [done|]. lia.
Qed.

Lemma ledger_le_bump f k g :
  (∀ r, (wins r ≤ wins (f r))%N ∧ (losses r ≤ losses (f r))%N) →
  ledger_le g (bump f k g).
Proof.
  intros Hf n r Hn. rewrite bump_lookup, Hn. simpl.
  destruct (decide (n = k)); eexists; (split; [done|]); [apply Hf | lia].
Qed.

Lemma ledger_le_win k g : ledger_le g (bump win k g).
Proof.
  apply ledger_le_bump. intros r. simpl. split; [apply incr_ge | lia].
Qed.

Lemma ledger_le_lose k g : ledger_le g (bump lose k g).
Proof.
  apply ledger_le_bump. intros r. simpl. split; [lia | apply incr_ge].
Qed.

Lemma ledger_le_login k (g : gmap string stats_record) :
  ledger_le g match stats_get g k with
              | Absent => <[k := Stats 0 0]> g
              | Own _ | Inherited => g
              end.
Proof.
  unfold stats_get, get_property.
  destruct (g !! k) as [r|] eqn:Hk; [apply ledger_le_refl|].
  destruct (inherits k); [apply ledger_le_refl|].
  intros n r Hn. exists r. split; [|lia].
  rewrite lookup_insert_ne; [done | congruence].
Qed.

Lemma startGame_ledger isOpen coin v (s s' : State) out :
  Server.startGame isOpen coin v s = Done s' out →
  globalStats s' = globalStats s.
Proof.
  unfold Server.startGame. intros H. by repeat case_match; simplify_eq.
Qed.

Lemma login_ledger isOpen (w : ws) m (s s' : State) out :
  login isOpen w m s = Done s' out →
  ledger_le (globalStats s) (globalStats s').
Proof.
  unfold login. intros H.
  destruct (msg_name m) as [| | | |n|]; try done.
  destruct (assoc_get w (clients s)) as [c|]; [|done].
  destruct (broadcastLobby _ _ _) as [out'|]; [|done].
  injection H as <- <-. simpl. apply ledger_le_login.
Qed.

Lemma message_ledger isOpen uuid coin (w : ws) f (s s' : State) out :
  Server.on_message isOpen uuid coin w f s = Done s' out →
  ledger_le (globalStats s) (globalStats s').
Proof.
  unfold Server.on_message, Server.create_private, Server.join_private,
    challenge_request, Server.challenge_accept, relay_move, game_over.
  intros H. repeat case_match; simplify_eq; try apply ledger_le_refl.
  - by eapply login_ledger.
  - apply startGame_ledger in H as ->. apply ledger_le_refl.
  - apply startGame_ledger in H as ->. apply ledger_le_refl.
  - simpl. eapply ledger_le_trans; [apply ledger_le_win | apply ledger_le_lose].
Qed.

Lemma step_ledger (s s' : State) :
  Server.step s s' → ledger_le (globalStats s) (globalStats s').
Proof.
  intros [s0 w cid _ _|s0 isOpen uuid coin w f s1 out _ _ H|s0 isOpen w s1 out _ H].
  - apply ledger_le_refl.
  - by eapply message_ledger.
  - unfold Server.on_close in H. repeat case_match; simplify_eq.
    apply ledger_le_refl.
Qed.

(** X9.  Over any run of the server, a stats record, once created, is
    never removed, and its counters never go down: no handler deletes from
    the ledger or decrements, and [login] does not reset the record of a
    name that has one. *)
Theorem ledger_only_grows (s s' : State) :
  rtc Server.step s s' →
  ∀ n r, globalStats s !! n = Some r →
    ∃ r', globalStats s' !! n = Some r'
          ∧ (wins r ≤ wins r')%N ∧ (losses r ≤ losses r')%N.
Proof.
  intros Hrun. change (ledger_le (globalStats s) (globalStats s')).
  induction Hrun as [|s1 s2 s3 Hstep _ IH]; [apply ledger_le_refl|].
  eapply ledger_le_trans; [by apply step_ledger | done].
Qed.

Lemma ledger_only_grows_witness :
  rtc Server.step ranked ranked_again
  ∧ ∀ n r, globalStats ranked !! n = Some r →
      ∃ r', globalStats ranked_again !! n = Some r'
            ∧ (wins r ≤ wins r')%N ∧ (losses r ≤ losses r')%N.
Proof.
  assert (rtc Server.step ranked ranked_again) as Hrun.
  { apply rtc_once.
    eapply (Server.step_message _ all_open room_id true 1
              (Json (game_over_msg "Alice" "Bob")));
      [by eexists | reflexivity|].
    vm_compute. reflexivity. }
  split; [done|]. exact (ledger_only_grows ranked ranked_again Hrun).
Defined.

(** ** Rooms under messages *)

Lemma rooms_le_refl rs : rooms_le rs rs.
Proof. intros k r Hr. by exists r. Qed.

Lemma rooms_le_fresh rs uuid r0 :
  assoc_get uuid rs = None → rooms_le rs (assoc_set uuid r0 rs).
Proof.
  intros Hfresh k r Hr. exists r. split; [|done].
  rewrite assoc_get_set_ne; [done | congruence].
Qed.

Lemma rooms_le_push rs k r (w : ws) :
  assoc_get k rs = Some r →
  rooms_le rs (assoc_set k (Room (players r ++ [w]) (isPrivate r)) rs).
Proof.
  intros Hr k' r' Hr'. rewrite assoc_get_set.
  destruct (decide (k = k')) as [<-|Hne]; [|by exists r'].
  eexists. split; [done|]. simpl. intros p Hp.
  apply elem_of_app. left. congruence.
Qed.

(** X10.  No message ends a session: after any message that is handled
    to the end (with a room id from [uuidv4()] that is not in use), every
    room that existed still exists and still lists all the members it
    had.  Rooms and members only go away in the close handler. *)
Theorem messages_keep_rooms_and_members isOpen uuid coin (w : ws) (f : frame)
    (s s' : State) (out : sent) :
  Server.on_message isOpen uuid coin w f s = Done s' out →
  assoc_get uuid (rooms s) = None →
  ∀ k r, assoc_get k (rooms s) = Some r →
    ∃ r', assoc_get k (rooms s') = Some r'
          ∧ ∀ p, p ∈ players r → p ∈ players r'.
Proof.
  intros H Hfresh. change (rooms_le (rooms s) (rooms s')).
  unfold Server.on_message, login, Server.create_private, Server.join_private,
    challenge_request, Server.challenge_accept, relay_move, game_over in H.
  repeat case_match; simplify_eq; try apply rooms_le_refl; simpl.
  - by apply rooms_le_fresh.
  - apply startGame_facts in H as [-> _]. simpl. apply rooms_le_push.
    unfold rooms_get, get_property in *. by repeat case_match; simplify_eq.
  - apply startGame_facts in H as [-> _]. simpl. by apply rooms_le_fresh.
Qed.

Lemma messages_keep_rooms_and_members_witness :
  (Server.on_message all_open second_room_id true 3
     (Json (create_private_msg "Cy" "b_q")) watched
   = Done
       (Build [(1, guest alice_id Playing); (2, guest bob_id Playing);
               (3, Client carol_id (JStr "Cy") (JStr "b_q") WaitingPrivate)]
          [(room_id, Room [2; 1] (Some false));
           (second_room_id, Room [3] (Some true))] ∅ false)
       [(3, PrivateCreated second_room_id)]
   ∧ assoc_get second_room_id (rooms watched) = None)
  ∧ ∀ k r, assoc_get k (rooms watched) = Some r →
      ∃ r', assoc_get k [(room_id, Room [2; 1] (Some false));
                         (second_room_id, Room [3] (Some true))] = Some r'
            ∧ ∀ p, p ∈ players r → p ∈ players r'.
Proof.
  split; [split; reflexivity|].
  exact (messages_keep_rooms_and_members all_open second_room_id true 3
           (Json (create_private_msg "Cy" "b_q")) watched _ _
           eq_refl eq_refl).
Defined.

(** ** Names in the lobby *)

Lemma safe_login_name_login_name n : login_name (JStr (safe_login_name n)).
Proof.
  exists (safe_login_name n). split; [done|].
  split; [|apply safe_login_name_length].
  rewrite safe_login_name_eq. destruct (decide (n = EmptyString)); [done|].
  by destruct n.
Qed.

Lemma lobby_names_short_set (w : ws) c cs :
  lobby_names_short cs →
  (state c = Lobby → login_name (name c)) →
  lobby_names_short (assoc_set w c cs).
Proof.
  unfold lobby_names_short. intros Hcs Hc.
  apply Forall_forall. intros e He.
  apply elem_of_assoc_set in He as [->|He]; [done|].
  by eapply Forall_forall in Hcs.
Qed.

Lemma lobby_names_short_startGame isOpen coin v (s s' : State) out :
  Server.startGame isOpen coin v s = Done s' out →
  lobby_names_short (clients s) → lobby_names_short (clients s').
Proof.
  unfold Server.startGame. intros H Hs.
  repeat case_match; simplify_eq; try done.
  all: simpl; by do 2 (apply lobby_names_short_set; [|done]).
Qed.

Lemma lobby_names_short_message isOpen uuid coin (w : ws) f (s s' : State) out :
  Server.on_message isOpen uuid coin w f s = Done s' out →
  lobby_names_short (clients s) → lobby_names_short (clients s').
Proof.
  unfold Server.on_message, login, Server.create_private, Server.join_private,
    challenge_request, Server.challenge_accept, relay_move, game_over.
  intros H Hs. repeat case_match; simplify_eq; try done; simpl.
  all: try (apply lobby_names_short_set; [done|]; intros _;
            apply safe_login_name_login_name).
  - by apply lobby_names_short_set.
  - eapply lobby_names_short_startGame; [done|]. simpl.
    by apply lobby_names_short_set.
  - by eapply lobby_names_short_startGame.
Qed.

(** X11.  In every reachable state of the server, a connection in the
    lobby has a name that [login] stored: a string that is not empty and
    has at most 15 characters.  (Names stored by [create_private] and
    [join_private] are not bounded, but those handlers never leave a
    connection in the lobby.) *)
Theorem lobby_names_are_login_names (s : State) :
  Server.reachable s →
  ∀ w c, (w, c) ∈ clients s → state c = Lobby →
    ∃ n, name c = JStr n ∧ n ≠ EmptyString ∧ String.length n ≤ 15.
Proof.
  intros Hs.
  assert (lobby_names_short (clients s)) as Hall.
  { revert s Hs.
    apply (rtc_ind_r (R := Server.step) (λ s, lobby_names_short (clients s))
             initial); [apply Forall_nil_2|].
    intros s1 s2 _ Hstep Hs1. destruct Hstep as [s1 w cid _ _| |].
    - simpl. by apply lobby_names_short_set.
    - by eapply lobby_names_short_message.
    - unfold Server.on_close in *. repeat case_match; simplify_eq. simpl.
      unfold lobby_names_short in *. apply Forall_forall. intros e He.
      apply elem_of_assoc_delete in He as [He _].
      by eapply Forall_forall in Hs1. }
  intros w c Hin Hst.
  exact (proj1 (Forall_forall _ _) Hall (w, c) Hin Hst).
Qed.

Lemma lobby_names_are_login_names_witness :
  Server.reachable relogged
  ∧ ∀ w c, (w, c) ∈ clients relogged → state c = Lobby →
      ∃ n, name c = JStr n ∧ n ≠ EmptyString ∧ String.length n ≤ 15.
Proof.
  split; [apply relogged_reachable|].
  exact (lobby_names_are_login_names relogged relogged_reachable).
Defined.

(** X12.  The name [login] stores is never empty, has at most 15
    characters, is the supplied name itself when that has between 1 and
    15 characters, is a prefix of the supplied name when that is not
    empty, and is left unchanged by a second sanitisation. *)
Theorem safe_login_name_sane (n : string) :
  safe_login_name n ≠ EmptyString
  ∧ String.length (safe_login_name n) ≤ 15
  ∧ (n = EmptyString ∨ String.prefix (safe_login_name n) n = true)
  ∧ (n = EmptyString ∨ 15 < String.length n ∨ safe_login_name n = n)
  ∧ safe_login_name (safe_login_name n) = safe_login_name n.
Proof.
  assert (∀ k m, String.prefix (String.substring 0 k m) m = true) as Hprefix.
  { induction k as [|k IH]; intros [|a m]; simpl; try done.
    destruct (Ascii.ascii_dec a a); [apply IH | done]. }
  assert (∀ k m, String.length m ≤ k → String.substring 0 k m = m) as Hshort.
  { induction k as [|k IH]; intros [|a m]; simpl; try done; try lia.
    intros Hm. f_equal. apply IH. lia. }
  split; [|split; [apply safe_login_name_length|split; [|split]]].
  - rewrite safe_login_name_eq. destruct (decide (n = EmptyString)); [done|].
    by destruct n.
  - destruct (decide (n = EmptyString)) as [?|Hn]; [by left|]. right.
    rewrite safe_login_name_eq, decide_False by done. apply Hprefix.
  - destruct (decide (n = EmptyString)) as [?|Hn]; [by left|]. right.
    destruct (decide (15 < String.length n)) as [?|Hlen]; [by left|]. right.
    rewrite safe_login_name_eq, decide_False by done. apply Hshort. lia.
  - rewrite (safe_login_name_eq (safe_login_name n)).
    rewrite decide_False.
    + apply Hshort, safe_login_name_length.
    + rewrite safe_login_name_eq. destruct (decide (n = EmptyString)); [done|].
      by destruct n.
Qed.

(** ** The two lobby servers compared *)

Lemma same_members_set rs k r r' :
  players r = players r' →
  same_members (assoc_set k r rs) (assoc_set k r' rs).
Proof.
  unfold same_members. intros Hp.
  induction rs as [|[k0 r0] rs IH]; cbn [assoc_set].
  - rewrite !fmap_cons. cbn [fst snd]. by rewrite Hp.
  - destruct (decide (k = k0)); rewrite !fmap_cons; cbn [fst snd].
    + by rewrite Hp.
    + by rewrite IH.
Qed.

(** X13.  Moving the start of a game into [startGame] did not change what
    [challenge_accept] does: on every state and message the two lobby
    servers either both throw, or both complete with the same messages
    sent, the same registry, the same ledger and rooms with the same ids
    and members (the later server adds the [isPrivate] field). *)
Theorem challenge_accept_same_in_both_servers isOpen uuid coin (w : ws)
    (m : message) (s : State) :
  match Server.challenge_accept isOpen uuid coin w m s,
        Lobby.challenge_accept isOpen uuid coin w m s with
  | Done s1 out1, Done s2 out2 =>
      out1 = out2 ∧ clients s1 = clients s2
      ∧ globalStats s1 = globalStats s2
      ∧ same_members (rooms s1) (rooms s2)
  | Uncaught, Uncaught => True
  | _, _ => False
  end.
Proof.
  unfold Server.challenge_accept, Lobby.challenge_accept.
  destruct (find_client _ _ _) as [[o co]|]; [|done].
  unfold Server.startGame. simpl.
  unfold rooms_get, get_property. simpl. rewrite assoc_get_set_eq.
  destruct (assoc_get w (clients s)) as [c|]; [|done].
  change (Lobby.set_state Playing) with Server.set_playing.
  destruct (assoc_get o _) as [c2|]; [|done].
  destruct (broadcastLobby _ _ _) as [out|]; [|done].
  simpl. split; [by destruct coin|]. split; [done|]. split; [done|].
  by apply same_members_set.
Qed.

(** X14.  The first lobby server never ends a session.  A message that is
    handled to the end (with a room id from [uuidv4()] that is not in use)
    and a disconnect both leave every existing room exactly as it was,
    members included; and a disconnect sends nothing but the lobby
    snapshot, so the opponent of the closed connection is not told. *)
Theorem first_lobby_server_keeps_every_room isOpen uuid coin (w : ws)
    (f : frame) (s s' : State) (out : sent) :
  (Lobby.on_message isOpen uuid coin w f s = Done s' out
   ∧ assoc_get uuid (rooms s) = None)
  ∨ Lobby.on_close isOpen w s = Done s' out →
  (∀ k r, assoc_get k (rooms s) = Some r → assoc_get k (rooms s') = Some r)
  ∧ (Lobby.on_close isOpen w s = Done s' out →
     rooms s' = rooms s ∧ ∀ q pl, (q, pl) ∈ out → ∃ l, pl = LobbyUpdate l).
Proof.
  intros H. split.
  - intros k r Hr. destruct H as [[H Hfresh]|H].
    + unfold Lobby.on_message, login, challenge_request,
        Lobby.challenge_accept, relay_move, game_over, Lobby.return_lobby in H.
      repeat case_match; simplify_eq; try done; simpl.
      all: rewrite assoc_get_set_ne; [done | congruence].
    + unfold Lobby.on_close in H. by repeat case_match; simplify_eq.
  - clear H. unfold Lobby.on_close. intros H.
    destruct (broadcastLobby _ _ _) as [out'|] eqn:Hb; [|done].
    injection H as <- <-. split; [done|]. intros q pl Hin.
    by eapply broadcastLobby_payload.
Qed.

Lemma first_lobby_server_keeps_every_room_witness :
  Lobby.on_close all_open 1 lobby_in_game
  = Done (Build [(2, guest bob_id Playing)] [(room_id, Room [2; 1] None)]
            ∅ false) []
  ∧ (∀ k r, assoc_get k (rooms lobby_in_game) = Some r →
       assoc_get k [(room_id, Room [2; 1] None)] = Some r)
  ∧ (Lobby.on_close all_open 1 lobby_in_game
     = Done (Build [(2, guest bob_id Playing)] [(room_id, Room [2; 1] None)]
               ∅ false) [] →
     [(room_id, Room [2; 1] None)] = rooms lobby_in_game
     ∧ ∀ q pl, (q, pl) ∈ ([] : sent) → ∃ l, pl = LobbyUpdate l).
Proof.
  split; [reflexivity|].
  exact (first_lobby_server_keeps_every_room all_open room_id true 1 BadJson
           lobby_in_game _ _ (or_intror eq_refl)).
Defined.

(** ** The room relay *)

Lemma Forall_assoc_set {A} (P : A → Prop) (k : string) a (l : list (string * A)) :
  Forall (λ e, P e.2) l → P a → Forall (λ e, P e.2) (assoc_set k a l).
Proof.
  intros Hl Ha. apply Forall_forall. intros e He.
  apply elem_of_assoc_set in He as [->|He]; [done|].
  by eapply Forall_forall in Hl.
Qed.

Lemma Forall_assoc_delete {A} (P : A → Prop) (k : string)
    (l : list (string * A)) :
  Forall (λ e, P e.2) l → Forall (λ e, P e.2) (assoc_delete k l).
Proof.
  intros Hl. apply Forall_forall. intros e He.
  apply elem_of_assoc_delete in He as [He _].
  by eapply Forall_forall in Hl.
Qed.

Lemma relay_rooms_ok_lookup (s : Relay.State) k ps :
  relay_rooms_ok s → assoc_get k (Relay.rooms s) = Some ps → relay_room_ok ps.
Proof.
  intros Hs Hps. apply assoc_get_elem_of in Hps.
  exact (proj1 (Forall_forall _ _) Hs (k, ps) Hps).
Qed.

Lemma relay_join_ok isOpen coin (w : ws) m (s s' : Relay.State) out :
  Relay.join isOpen coin w m s = Done s' out →
  relay_rooms_ok s → relay_rooms_ok s'.
Proof.
  unfold Relay.join. intros H Hs.
  destruct (negb (truthy (roomId m))); [by injection H as <- <-|].
  destruct (to_key (roomId m)) as [k|]; [|done].
  unfold Relay.rooms_get, get_property in H.
  destruct (assoc_get k (Relay.rooms s)) as [ps|] eqn:Hps.
  - pose proof (relay_rooms_ok_lookup _ _ _ Hs Hps) as Hok.
    destruct ps as [|q0 [|q1 [|q2 ps]]]; try done; simpl in H.
    + injection H as <- <-. unfold relay_rooms_ok. simpl.
      apply Forall_assoc_set; [done|]. simpl.
      exists (if coin then White else Black). by destruct coin.
    + by injection H as <- <-.
  - destruct (inherits k); [done|]. simpl in H. injection H as <- <-.
    unfold relay_rooms_ok. simpl. by apply Forall_assoc_set.
Qed.

Lemma relay_close_ok (w : ws) (s s' : Relay.State) out :
  Relay.on_close w s = Done s' out → relay_rooms_ok s → relay_rooms_ok s'.
Proof.
  unfold Relay.on_close. intros H Hs.
  destruct (assoc_get w (Relay.clientRoom s)) as [v|];
    [|by injection H as <- <-].
  destruct (negb (truthy v)); [by injection H as <- <-|].
  destruct (to_key v) as [k|]; [|done].
  unfold Relay.rooms_get, get_property in H.
  destruct (assoc_get k (Relay.rooms s)) as [ps|] eqn:Hps.
  - pose proof (relay_rooms_ok_lookup _ _ _ Hs Hps) as Hok.
    injection H as <- <-. unfold relay_rooms_ok. simpl.
    destruct ps as [|q0 [|q1 [|q2 ps]]]; try done; simpl.
    + destruct (negb (bool_decide (Relay.player_ws q0 = w)));
        [by apply Forall_assoc_set | by apply Forall_assoc_delete].
    + destruct (negb (bool_decide (Relay.player_ws q0 = w))),
        (negb (bool_decide (Relay.player_ws q1 = w)));
        try (by apply Forall_assoc_set); by apply Forall_assoc_delete.
  - destruct (inherits k); [done|]. by injection H as <- <-.
Qed.

Lemma relay_move_same isOpen (w : ws) m (s s' : Relay.State) out :
  Relay.relay_move isOpen w m s = Done s' out → s' = s.
Proof.
  unfold Relay.relay_move. intros H. by repeat case_match; simplify_eq.
Qed.

Lemma relay_waiting_reachable : Relay.reachable relay_waiting.
Proof.
  apply rtc_once.
  by apply (Relay.step_message _ all_open true 1
              (Json (join_msg "den" "Ann")) _ []).
Qed.

Lemma relay_playing_reachable : Relay.reachable relay_playing.
Proof.
  eapply rtc_r; [apply relay_waiting_reachable|].
  by apply (Relay.step_message _ all_open true 2
              (Json (join_msg "den" "Ben")) _
              [(1, Start White); (2, Start Black)]).
Qed.

(** X15.  In every state the relay reaches from its empty start, a room
    has one or two players, never none and never more; and when it has
    two, both have a colour and the two colours differ. *)
Theorem relay_rooms_hold_one_or_two (s : Relay.State) :
  Relay.reachable s →
  ∀ k ps, assoc_get k (Relay.rooms s) = Some ps →
    1 ≤ length ps ≤ 2
    ∧ ∀ q0 q1, ps = [q0; q1] →
        ∃ c, Relay.player_color q0 = Some c
             ∧ Relay.player_color q1 = Some (Server.other_color c)
             ∧ Server.other_color c ≠ c.
Proof.
  intros Hs.
  assert (relay_rooms_ok s) as Hok.
  { revert s Hs.
    apply (rtc_ind_r (R := Relay.step) relay_rooms_ok Relay.initial);
      [apply Forall_nil_2|].
    intros s1 s2 _ Hstep Hs1.
    destruct Hstep as [s1 isOpen coin w f s2 out H|s1 w s2 out H].
    - unfold Relay.on_message in H.
      destruct f as [| |m]; [by injection H as <- <- | done |].
      destruct (is_type m "join"); [by eapply relay_join_ok|].
      destruct (is_type m "move"); [|by injection H as <- <-].
      by apply relay_move_same in H as ->.
    - by eapply relay_close_ok. }
  intros k ps Hps. pose proof (relay_rooms_ok_lookup _ _ _ Hok Hps) as Hroom.
  destruct ps as [|q0 [|q1 [|q2 ps]]]; try done; simpl.
  - split; [lia|]. done.
  - split; [lia|]. intros ? ? [= <- <-].
    destruct Hroom as (c & H0 & H1). exists c. by destruct c.
Qed.

Lemma relay_rooms_hold_one_or_two_witness :
  Relay.reachable relay_playing
  ∧ ∀ k ps, assoc_get k (Relay.rooms relay_playing) = Some ps →
      1 ≤ length ps ≤ 2
      ∧ ∀ q0 q1, ps = [q0; q1] →
          ∃ c, Relay.player_color q0 = Some c
               ∧ Relay.player_color q1 = Some (Server.other_color c)
               ∧ Server.other_color c ≠ c.
Proof.
  split; [apply relay_playing_reachable|].
  exact (relay_rooms_hold_one_or_two relay_playing relay_playing_reachable).
Defined.

(** X16.  The relay refuses a [join] in two cases, both with an [error]
    sent to the sender alone and no change of state: without a [roomId]
    (missing, empty, or otherwise falsy) the message is ["No roomId
    provided"], and for a room that already has two players it is ["Room
    full"]. *)
Theorem relay_join_refused isOpen coin (w : ws) (m : message)
    (s : Relay.State) (e : string) :
  type m = JStr "join" →
  (truthy (roomId m) = false ∧ e = "No roomId provided")
  ∨ (truthy (roomId m) = true ∧ e = "Room full"
     ∧ ∃ k ps, to_key (roomId m) = Some k
               ∧ assoc_get k (Relay.rooms s) = Some ps ∧ 2 ≤ length ps) →
  Relay.on_message isOpen coin w (Json m) s
  = Done s (send isOpen w (Error e)).
Proof.
  intros Hty H. unfold Relay.on_message. rewrite !(is_type_eq _ _ _ Hty).
  simpl. unfold Relay.join.
  destruct H as [[-> ->]|(-> & -> & k & ps & -> & Hps & Hlen)]; [done|].
  simpl. unfold Relay.rooms_get, get_property. rewrite Hps.
  destruct ps as [|q0 [|q1 ps]]; simpl in *; [lia | lia | done].
Qed.

Lemma relay_join_refused_witness :
  (type (join_msg "den" "Cy") = JStr "join"
   ∧ ((truthy (roomId (join_msg "den" "Cy")) = false
       ∧ "Room full" = "No roomId provided")
      ∨ (truthy (roomId (join_msg "den" "Cy")) = true
         ∧ "Room full" = "Room full"
         ∧ ∃ k ps, to_key (roomId (join_msg "den" "Cy")) = Some k
                   ∧ assoc_get k (Relay.rooms relay_playing) = Some ps
                   ∧ 2 ≤ length ps)))
  ∧ Relay.on_message all_open true 3 (Json (join_msg "den" "Cy")) relay_playing
    = Done relay_playing [(3, Error "Room full")].
Proof.
  assert ((truthy (roomId (join_msg "den" "Cy")) = false
           ∧ "Room full" = "No roomId provided")
          ∨ (truthy (roomId (join_msg "den" "Cy")) = true
             ∧ "Room full" = "Room full"
             ∧ ∃ k ps, to_key (roomId (join_msg "den" "Cy")) = Some k
                       ∧ assoc_get k (Relay.rooms relay_playing) = Some ps
                       ∧ 2 ≤ length ps)) as Hcase.
  { right. split; [done|]. split; [done|]. eexists _, _.
    split; [reflexivity|]. split; [reflexivity|]. simpl. lia. }
  split; [done|].
  exact (relay_join_refused all_open true 3 (join_msg "den" "Cy")
           relay_playing "Room full" eq_refl Hcase).
Defined.

(** X17.  Two joins start a game.  The first [join] of a room that does
    not exist creates it with the joiner as its only, uncoloured, player
    and sends nothing.  The second [join] of that room is sent nothing but
    starts the game: the first player is sent [start] with one colour and
    the second player [start] with the other, the first player's being
    white exactly when [Math.random() < 0.5], and the room stores both
    players with these colours. *)
Theorem relay_second_join_starts isOpen isOpen' coin coin' (w1 w2 : ws)
    (m1 m2 : message) (s : Relay.State) k :
  type m1 = JStr "join" →
  type m2 = JStr "join" →
  truthy (roomId m1) = true →
  to_key (roomId m1) = Some k →
  roomId m2 = roomId m1 →
  assoc_get k (Relay.rooms s) = None →
  inherits k = false →
  ∃ s1 s2 c,
    Relay.on_message isOpen coin w1 (Json m1) s = Done s1 []
    ∧ assoc_get k (Relay.rooms s1)
      = Some [Relay.Player w1 (or_else (msg_name m1) (JStr "Player")) None]
    ∧ Relay.on_message isOpen' coin' w2 (Json m2) s1
      = Done s2 (send isOpen' w1 (Start c)
                 ++ send isOpen' w2 (Start (Server.other_color c)))
    ∧ c = (if coin' then White else Black)
    ∧ assoc_get k (Relay.rooms s2)
      = Some [Relay.Player w1 (or_else (msg_name m1) (JStr "Player")) (Some c);
              Relay.Player w2 (or_else (msg_name m2) (JStr "Player"))
                (Some (Server.other_color c))]
    ∧ assoc_get w1 (Relay.clientRoom s1) = Some (roomId m1)
    ∧ assoc_get w2 (Relay.clientRoom s2) = Some (roomId m1).
Proof.
  intros Hty1 Hty2 Htruthy Hk Hroom Hfresh Hinh.
  eexists _, _, (if coin' then White else Black).
  replace (Server.other_color (if coin' then White else Black))
    with (if coin' then Black else White) by (by destruct coin').
  split; [|split; [|split; [|split; [done|split; [|split]]]]].
  - unfold Relay.on_message. rewrite !(is_type_eq _ _ _ Hty1). simpl.
    unfold Relay.join. rewrite Htruthy, Hk. simpl.
    unfold Relay.rooms_get, get_property. rewrite Hfresh, Hinh. simpl.
    reflexivity.
  - simpl. apply assoc_get_set_eq.
  - unfold Relay.on_message. rewrite !(is_type_eq _ _ _ Hty2). simpl.
    unfold Relay.join. rewrite Hroom, Htruthy, Hk. simpl.
    unfold Relay.rooms_get, get_property. simpl.
    rewrite assoc_get_set_eq. simpl. reflexivity.
  - simpl. by rewrite assoc_get_set_eq.
  - simpl. apply assoc_get_set_eq.
  - simpl. apply assoc_get_set_eq.
Qed.

Lemma relay_second_join_starts_witness :
  (type (join_msg "den" "Ann") = JStr "join"
   ∧ type (join_msg "den" "") = JStr "join"
   ∧ truthy (roomId (join_msg "den" "Ann")) = true
   ∧ to_key (roomId (join_msg "den" "Ann")) = Some "den"
   ∧ roomId (join_msg "den" "") = roomId (join_msg "den" "Ann")
   ∧ assoc_get "den" (Relay.rooms Relay.initial) = None
   ∧ inherits "den" = false)
  ∧ ∃ s1 s2 c,
      Relay.on_message all_open true 1 (Json (join_msg "den" "Ann"))
        Relay.initial = Done s1 []
      ∧ assoc_get "den" (Relay.rooms s1)
        = Some [Relay.Player 1 (JStr "Ann") None]
      ∧ Relay.on_message all_open false 2 (Json (join_msg "den" "")) s1
        = Done s2 (send all_open 1 (Start c)
                   ++ send all_open 2 (Start (Server.other_color c)))
      ∧ c = Black
      ∧ assoc_get "den" (Relay.rooms s2)
        = Some [Relay.Player 1 (JStr "Ann") (Some c);
                Relay.Player 2 (JStr "Player") (Some (Server.other_color c))]
      ∧ assoc_get 1 (Relay.clientRoom s1) = Some (JStr "den")
      ∧ assoc_get 2 (Relay.clientRoom s2) = Some (JStr "den").
Proof.
  split; [done|].
  exact (relay_second_join_starts all_open all_open true false 1 2
           (join_msg "den" "Ann") (join_msg "den" "") Relay.initial "den"
           eq_refl eq_refl eq_refl eq_refl eq_refl eq_refl eq_refl).
Defined.

(** X18.  When a connection that has joined a room closes, the relay
    sends nothing to anyone, forgets the connection's room, removes the
    connection from that room and keeps the room's other players; the room
    itself is deleted exactly when no other player is left.  Other rooms
    and other connections' entries are untouched. *)
Theorem relay_close_leaves_the_room (w : ws) (s : Relay.State) v k ps :
  assoc_get w (Relay.clientRoom s) = Some v →
  truthy v = true →
  to_key v = Some k →
  assoc_get k (Relay.rooms s) = Some ps →
  ∃ s',
    Relay.on_close w s = Done s' []
    ∧ assoc_get w (Relay.clientRoom s') = None
    ∧ (∀ w', w' ≠ w →
         assoc_get w' (Relay.clientRoom s') = assoc_get w' (Relay.clientRoom s))
    ∧ (∀ k', k' ≠ k →
         assoc_get k' (Relay.rooms s') = assoc_get k' (Relay.rooms s))
    ∧ (∀ q, (∃ ps', assoc_get k (Relay.rooms s') = Some ps' ∧ q ∈ ps')
            ↔ q ∈ ps ∧ Relay.player_ws q ≠ w)
    ∧ (assoc_get k (Relay.rooms s') = None
       ↔ ∀ q, q ∈ ps → Relay.player_ws q = w).
Proof.
  intros Hv Htruthy Hk Hps. unfold Relay.on_close.
  rewrite Hv, Htruthy, Hk. simpl.
  unfold Relay.rooms_get, get_property. rewrite Hps.
  set (left := List.filter _ ps).
  assert (∀ q, q ∈ left ↔ q ∈ ps ∧ Relay.player_ws q ≠ w) as Hleft.
  { intros q. unfold left. rewrite !list_elem_of_In, filter_In.
    by rewrite negb_true_iff, bool_decide_eq_false. }
  eexists. split; [done|]. simpl.
  split; [apply assoc_get_delete_eq|].
  split; [intros w' Hne; by apply assoc_get_delete_ne|].
  destruct left as [|q0 left'] eqn:Hl.
  - split; [intros k' Hne; by apply assoc_get_delete_ne|].
    rewrite assoc_get_delete_eq. split.
    + intros q. rewrite <- Hleft. split.
      * by intros (ps' & ? & _).
      * intros Hq. by apply elem_of_nil in Hq.
    + split; [|done]. intros _ q Hq.
      destruct (decide (Relay.player_ws q = w)) as [|Hne]; [done|].
      assert (q ∈ []) as Hin by (by apply Hleft). by apply elem_of_nil in Hin.
  - split; [intros k' Hne; by apply assoc_get_set_ne|].
    rewrite assoc_get_set_eq. split.
    + intros q. rewrite <- Hleft. split.
      * by intros (ps' & [= <-] & ?).
      * intros Hq. by eexists.
    + split; [done|]. intros Hall.
      assert (q0 ∈ q0 :: left') as Hq0 by (apply elem_of_cons; by left).
      apply Hleft in Hq0 as [Hq0 Hne]. by destruct (Hne (Hall q0 Hq0)).
Qed.

Lemma relay_close_leaves_the_room_witness :
  (assoc_get 1 (Relay.clientRoom relay_playing) = Some (JStr "den")
   ∧ truthy (JStr "den") = true
   ∧ to_key (JStr "den") = Some "den"
   ∧ assoc_get "den" (Relay.rooms relay_playing)
     = Some [Relay.Player 1 (JStr "Ann") (Some White);
             Relay.Player 2 (JStr "Ben") (Some Black)])
  ∧ ∃ s',
      Relay.on_close 1 relay_playing = Done s' []
      ∧ assoc_get 1 (Relay.clientRoom s') = None
      ∧ (∀ w', w' ≠ 1 →
           assoc_get w' (Relay.clientRoom s')
           = assoc_get w' (Relay.clientRoom relay_playing))
      ∧ (∀ k', k' ≠ "den" →
           assoc_get k' (Relay.rooms s')
           = assoc_get k' (Relay.rooms relay_playing))
      ∧ (∀ q, (∃ ps', assoc_get "den" (Relay.rooms s') = Some ps' ∧ q ∈ ps')
              ↔ q ∈ [Relay.Player 1 (JStr "Ann") (Some White);
                     Relay.Player 2 (JStr "Ben") (Some Black)]
                ∧ Relay.player_ws q ≠ 1)
      ∧ (assoc_get "den" (Relay.rooms s') = None
         ↔ ∀ q, q ∈ [Relay.Player 1 (JStr "Ann") (Some White);
                     Relay.Player 2 (JStr "Ben") (Some Black)] →
             Relay.player_ws q = 1).
Proof.
  split; [done|].
  exact (relay_close_leaves_the_room 1 relay_playing (JStr "den") "den" _
           eq_refl eq_refl eq_refl eq_refl).
Defined.

(** X19.  A [move] never changes the relay's state.  Whatever it sends is
    the move itself, goes to a player of the room the message names whose
    socket is open, and never goes back to the sender; players of other
    rooms are sent nothing. *)
Theorem relay_move_only_relays isOpen coin (w : ws) (m : message)
    (s s' : Relay.State) (out : sent) :
  type m = JStr "move" →
  Relay.on_message isOpen coin w (Json m) s = Done s' out →
  s' = s
  ∧ ∀ q pl, (q, pl) ∈ out →
      pl = Move (move m) ∧ q ≠ w ∧ isOpen q = true
      ∧ ∃ k ps p, to_key (roomId m) = Some k
                  ∧ assoc_get k (Relay.rooms s) = Some ps
                  ∧ p ∈ ps ∧ Relay.player_ws p = q.
Proof.
  intros Hty. unfold Relay.on_message. rewrite !(is_type_eq _ _ _ Hty).
  simpl. intros H. split; [by eapply relay_move_same|].
  intros q pl Hin. unfold Relay.relay_move in H.
  destruct (negb (truthy (roomId m)));
    [injection H as <- <-; by apply elem_of_nil in Hin|].
  destruct (to_key (roomId m)) as [k|] eqn:Hk; [|done].
  unfold Relay.broadcastToRoom in H. rewrite Hk in H. simpl in H.
  unfold Relay.rooms_get, get_property in H.
  destruct (assoc_get k (Relay.rooms s)) as [ps|] eqn:Hps.
  - simpl in H. injection H as <- <-.
    apply list_elem_of_In, in_flat_map in Hin as (p & Hp & Hin).
    destruct (bool_decide (Some (Relay.player_ws p) ≠ Some w)) eqn:Hne;
      simpl in Hin; [|done].
    destruct (isOpen (Relay.player_ws p)) eqn:Hopen; [|done].
    destruct Hin as [[= <- <-]|[]].
    apply bool_decide_eq_true in Hne.
    split; [done|]. split; [congruence|]. split; [done|].
    exists k, ps, p. by rewrite list_elem_of_In.
  - destruct (inherits k); [done|]. injection H as <- <-.
    by apply elem_of_nil in Hin.
Qed.

Lemma relay_move_only_relays_witness :
  (type (move_msg "den" "e2e4") = JStr "move"
   ∧ Relay.on_message all_open true 1 (Json (move_msg "den" "e2e4"))
       relay_playing
     = Done relay_playing [(2, Move (JStr "e2e4"))])
  ∧ relay_playing = relay_playing
  ∧ ∀ q pl, (q, pl) ∈ [(2, Move (JStr "e2e4"))] →
      pl = Move (JStr "e2e4") ∧ q ≠ 1 ∧ all_open q = true
      ∧ ∃ k ps p, to_key (JStr "den") = Some k
                  ∧ assoc_get k (Relay.rooms relay_playing) = Some ps
                  ∧ p ∈ ps ∧ Relay.player_ws p = q.
Proof.
  split; [done|].
  exact (relay_move_only_relays all_open true 1 (move_msg "den" "e2e4")
           relay_playing relay_playing _ eq_refl eq_refl).
Defined.
